(** * angr: exploration techniques and the [select] procedure

    A shallow embedding of
    - [angr/exploration_techniques/__init__.py]: the compatibility metaclass
      [ExplorationTechniqueMeta] and [ExplorationTechnique._condition_to_lambda];
    - [angr/procedures/posix/select.py]: [select.run].

    Python values are a small inductive type, Python exceptions are an
    explicit result constructor, and everything that reads or writes mutable
    Python objects runs in a state-and-exception monad over an explicit
    world. *)

From Stdlib Require Import ZArith String List Lia.
From stdpp Require Import base gmap sets list strings.
From Equations Require Import Equations.

Local Open Scope Z_scope.
Set Warnings "-register-all,-clear-no-such-hyp".

(** ** Python runtime: exceptions and results *)

(** An exception instance: its class, the method resolution order of that
    class (the class itself first) and its message. *)
Record exn := Exn {
  exn_class : string;
  exn_mro : list string;
  exn_msg : string
}.

(** [isinstance(e, cls)] for an exception instance. *)
Definition isinstance_exn (e : exn) (cls : string) : bool :=
  bool_decide (cls ∈ exn_mro e).

(** [except (c1, c2, ...)]: does the clause catch [e]? *)
Definition caught_by (classes : list string) (e : exn) : bool :=
  existsb (isinstance_exn e) classes.

(** The result of evaluating a Python expression. *)
Inductive outcome (A : Type) : Type :=
| Ret (a : A)
| Raise (e : exn).
Arguments Ret {A} a.
Arguments Raise {A} e.

Definition is_raise {A} (o : outcome A) : bool :=
  match o with Ret _ => false | Raise _ => true end.

(** Builtin exception classes. *)
Definition builtin_error (cls : string) (parents : list string) (msg : string) : exn :=
  Exn cls (cls :: parents ++ ["Exception"; "BaseException"; "object"])%list msg.

Definition TypeError := builtin_error "TypeError" [].
Definition AttributeError := builtin_error "AttributeError" [].
Definition AssertionError := builtin_error "AssertionError" [].
Definition IndexError := builtin_error "IndexError" ["LookupError"].
Definition KeyError := builtin_error "KeyError" ["LookupError"].
Definition ZeroDivisionError := builtin_error "ZeroDivisionError" ["ArithmeticError"].
Definition ValueError := builtin_error "ValueError" [].

(** The classes imported from [angr.errors]; that module declares
    [AngrError(Exception)], [AngrExplorationTechniqueError(AngrError)] and
    [SimError(Exception)]. *)
Definition AngrError := builtin_error "AngrError" [].
Definition SimError := builtin_error "SimError" [].
Definition AngrExplorationTechniqueError :=
  builtin_error "AngrExplorationTechniqueError" ["AngrError"].

(** ** The state-and-exception monad

    A computation takes the world, returns a value or raises, and leaves a
    world behind; what was written before a [raise] stays written. *)
Definition M (W A : Type) : Type := W → outcome A * W.

Global Instance M_ret {W} : MRet (M W) := λ A a w, (Ret a, w).
Global Instance M_bind {W} : MBind (M W) := λ A B k m w,
  match m w with
  | (Ret a, w') => k a w'
  | (Raise e, w') => (Raise e, w')
  end.

Definition raise {W A} (e : exn) : M W A := λ w, (Raise e, w).
Definition get_world {W} : M W W := λ w, (Ret w, w).
Definition lift_outcome {W A} (o : outcome A) : M W A := λ w, (o, w).

(** [try: body  except classes: handler]. *)
Definition try_except {W A} (body : M W A) (classes : list string) (handler : M W A) : M W A :=
  λ w, match body w with
       | (Ret a, w') => (Ret a, w')
       | (Raise e, w') => if caught_by classes e then handler w' else (Raise e, w')
       end.

(** ** [angr/exploration_techniques/__init__.py] *)
Module exploration_techniques.

(** *** External collaborators *)

(** A lifted basic block, as far as the matcher looks at it. *)
Record Block := { instruction_addrs : list Z }.

(** An execution state: its concrete address, and what [state.block()]
    gives: a block, or the exception the lifter raised. *)
Record SimState := {
  addr : Z;
  block : outcome Block
}.

(** An engine instance, by class and method resolution order. *)
Record Engine := { engine_class : string; engine_mro : list string }.

Definition isinstance_engine (e : Engine) (cls : string) : bool :=
  bool_decide (cls ∈ engine_mro e).

(** A project, reduced to [project.engines.default_engine]. *)
Record Project := { default_engine : Engine }.

(** The mutable world: the [project] attribute of every technique object
    (absent when it is [None]; "this attribute will be set from above by the
    manager"), and the module globals that user callables may read and
    write. *)
Record World := {
  technique_project : gmap N Project;
  globals : gmap string Z
}.

(** *** Python values *)

(** The values that conditions and matcher results range over.  Addresses
    are integers, so the sequences and sets that can be conditions hold
    integers; a sequence with an element that cannot be hashed, on which
    [set(condition)] raises, is not among them.  [VFunction] is any callable
    object taking a state; [VObject cls] is an instance of class [cls] that
    is none of the other shapes and has no [__call__]. *)
Inductive pyval :=
| VNone
| VBool (b : bool)
| VInt (n : Z)
| VStr (s : string)
| VTuple (l : list Z)
| VList (l : list Z)
| VSet (s : gset Z)
| VFunction (f : SimState → World → outcome pyval * World)
| VObject (cls : string).

(** Truth value of a Python object. *)
Definition truthy (v : pyval) : bool :=
  match v with
  | VNone => false
  | VBool b => b
  | VInt n => negb (n =? 0)
  | VStr s => negb (bool_decide (s = EmptyString))
  | VTuple l | VList l => negb (bool_decide (l = []))
  | VSet s => negb (bool_decide (s = ∅))
  | VFunction _ | VObject _ => true
  end.

(** [v.__class__.__name__]. *)
Definition class_name (v : pyval) : string :=
  match v with
  | VNone => "NoneType"
  | VBool _ => "bool"
  | VInt _ => "int"
  | VStr _ => "str"
  | VTuple _ => "tuple"
  | VList _ => "list"
  | VSet _ => "set"
  | VFunction _ => "function"
  | VObject cls => cls
  end.

(** [str(v.__class__)], what [%s] prints for a class. *)
Definition class_str (v : pyval) : string :=
  "<class '" +:+ class_name v +:+ "'>".

(** [isinstance(v, int)]; [bool] is a subclass of [int]. *)
Definition isinstance_int (v : pyval) : option Z :=
  match v with
  | VInt n => Some n
  | VBool b => Some (Z.b2z b)
  | _ => None
  end.

(** [isinstance(v, (tuple, set, list))], with [set(v)] when it is. *)
Definition isinstance_sequence (v : pyval) : option (gset Z) :=
  match v with
  | VTuple l | VList l => Some (list_to_set l)
  | VSet s => Some s
  | _ => None
  end.

(** [hasattr(v, '__call__')]. *)
Definition callable (v : pyval) : bool :=
  match v with VFunction _ => true | _ => false end.

(** [p(state)] for a Python object [p]. *)
Definition call (p : pyval) (state : SimState) : M World pyval :=
  match p with
  | VFunction f => f state
  | _ => raise (TypeError ("'" +:+ class_name p +:+ "' object is not callable"))
  end.

(** *** [_condition_to_lambda] *)

(** [self.project.engines.default_engine]. *)
Definition project_default_engine (self : N) : M World Engine :=
  w ← get_world;
  match technique_project w !! self with
  | None => raise (AttributeError "'NoneType' object has no attribute 'engines'")
  | Some project => mret (default_engine project)
  end.

(** The closure [condition_function] of the tuple/set/list branch, over
    [self] and [static_addrs]. *)
Definition condition_function (self : N) (static_addrs : gset Z)
    (state : SimState) : M World pyval :=
  if bool_decide (addr state ∈ static_addrs) then
    mret (VSet {[ addr state ]})
  else
    engine ← project_default_engine self;
    if negb (isinstance_engine engine "SimEngineVEX") then
      mret (VBool false)
    else
      try_except
        (b ← lift_outcome (block state);
         mret (VSet (static_addrs ∩ list_to_set (instruction_addrs b))))
        ["AngrError"; "SimError"]
        (mret (VBool false)).

(** The closure [lambda state: default] of the [None] branch. *)
Definition constant_function (dflt : pyval) (state : SimState) : M World pyval :=
  mret dflt.

(** The error of the last branch. *)
Definition unsupported_condition (condition : pyval) : exn :=
  AngrExplorationTechniqueError
    ("ExplorationTechnique is unable to convert given type (" +:+
     class_str condition +:+ ") to a callable condition function.").

(** The recursion of the integer branch is on a one-element tuple. *)
Definition condition_rank (condition : pyval) : nat :=
  match isinstance_int condition with Some _ => 1%nat | None => 0%nat end.

Equations _condition_to_lambda (self : N) (condition : pyval) (dflt : pyval)
    : outcome (pyval * pyval) by wf (condition_rank condition) lt :=
  _condition_to_lambda self VNone dflt :=
    Ret (VFunction (constant_function dflt), VSet ∅);
  _condition_to_lambda self (VBool b) dflt :=
    _condition_to_lambda self (VTuple [Z.b2z b]) (VBool false);
  _condition_to_lambda self (VInt n) dflt :=
    _condition_to_lambda self (VTuple [n]) (VBool false);
  _condition_to_lambda self (VTuple l) dflt :=
    Ret (VFunction (condition_function self (list_to_set l)), VSet (list_to_set l));
  _condition_to_lambda self (VList l) dflt :=
    Ret (VFunction (condition_function self (list_to_set l)), VSet (list_to_set l));
  _condition_to_lambda self (VSet s) dflt :=
    Ret (VFunction (condition_function self s), VSet s);
  _condition_to_lambda self (VFunction f) dflt :=
    Ret (VFunction f, VNone);
  _condition_to_lambda self condition dflt :=
    Raise (unsupported_condition condition).

(** Compile a condition and apply the predicate to a state, as the callers
    of [_condition_to_lambda] do. *)
Definition run_matcher (self : N) (condition dflt : pyval) (state : SimState)
    : M World pyval :=
  match _condition_to_lambda self condition dflt with
  | Ret (condition_function, _) => call condition_function state
  | Raise e => raise e
  end.

(** The default value [False] of the parameter [default]. *)
Definition default_False : pyval := VBool false.

(** *** The compatibility layer: [ExplorationTechniqueMeta] *)

(** What a hook returns: [None]; from [filter], the name of a stash, or a
    tuple of a stash and a modified state; from [step_state], a dict of
    stashes; from [step], the stepped manager. *)
Inductive hook_result :=
| RNone
| RStash (stash : string)
| RStashState (stash : string) (state : SimState)
| RStashes (stashes : gmap string (list SimState))
| RManager.

(** The simulation manager, reduced to the default hooks the wrappers fall
    back to: [simgr.step(stash=..., **kwargs)],
    [simgr.filter(state, filter_func=...)] and
    [simgr.step_state(state, successor_func=..., **kwargs)]. *)
Record SimulationManager := {
  simgr_step : pyval → gmap string pyval → M World hook_result;
  simgr_filter : SimState → pyval → M World hook_result;
  simgr_step_state : SimState → pyval → gmap string pyval → M World hook_result
}.

(** The argument lists with which hooks are called in this module and by
    the manager.  An argument with a default in the canonical signature is
    optional. *)
Inductive call_args :=
| ArgsStep (self : N) (simgr : SimulationManager) (stash : option pyval)
    (kwargs : gmap string pyval)
| ArgsLegacyFilter (self : N) (state : SimState)
| ArgsFilter (self : N) (simgr : SimulationManager) (state : SimState)
    (filter_func : option pyval)
| ArgsLegacyStepState (self : N) (state : SimState) (kwargs : gmap string pyval)
| ArgsStepState (self : N) (simgr : SimulationManager) (state : SimState)
    (successor_func : option pyval) (kwargs : gmap string pyval).

(** A callable entry of a class body that [inspect] can look into (a
    function, or another callable with a signature): its [args], its
    [defaults] ([None] when no parameter has a default), whether it has
    keyword-only parameters or annotations, and what calling it does.  A
    callable applied to an argument list it cannot bind raises
    [TypeError]. *)
Record pyfunction := {
  argspec_args : list string;
  argspec_defaults : option (list pyval);
  argspec_kwonly_or_annotations : bool;
  func_call : call_args → M World hook_result
}.

(** An entry of a class body: one that [inspect] can look into, or a value
    that it cannot (a value that is not callable, or a callable without a
    signature). *)
Inductive attr :=
| AttrFunction (f : pyfunction)
| AttrValue (v : pyval).

(** A class object, as [type.__new__(cls, name, bases, attrs)] makes it. *)
Record pyclass := {
  class_name_of : string;
  class_bases : list string;
  class_attrs : gmap string attr
}.

Definition bad_call : exn := TypeError "function called with arguments it cannot bind".

(** [result is None] *)
Definition is_None (result : hook_result) : bool :=
  match result with RNone => true | _ => false end.

Module ExplorationTechniqueMeta.

Definition _step_factory (step : pyfunction) : pyfunction :=
  {| argspec_args := ["self"; "simgr"; "stash"];
     argspec_defaults := Some [VStr "active"];
     argspec_kwonly_or_annotations := false;
     func_call := λ args,
       match args with
       | ArgsStep self simgr stash kwargs =>
           let stash := default (VStr "active") stash in
           func_call step (ArgsStep self simgr (Some stash) kwargs)
       | _ => raise bad_call
       end |}.

Definition _filter_factory (func : pyfunction) : pyfunction :=
  {| argspec_args := ["self"; "simgr"; "state"; "filter_func"];
     argspec_defaults := Some [VNone];
     argspec_kwonly_or_annotations := false;
     func_call := λ args,
       match args with
       | ArgsFilter self simgr state filter_func =>
           let filter_func := default VNone filter_func in
           result ← func_call func (ArgsLegacyFilter self state);
           result ← (if is_None result
                     then simgr_filter simgr state filter_func
                     else mret result);
           mret result
       | _ => raise bad_call
       end |}.

Definition _step_state_factory (step_state : pyfunction) : pyfunction :=
  {| argspec_args := ["self"; "simgr"; "state"; "successor_func"];
     argspec_defaults := Some [VNone];
     argspec_kwonly_or_annotations := false;
     func_call := λ args,
       match args with
       | ArgsStepState self simgr state successor_func kwargs =>
           let successor_func := default VNone successor_func in
           result ← func_call step_state (ArgsLegacyStepState self state kwargs);
           result ← (if is_None result
                     then simgr_step_state simgr state successor_func kwargs
                     else mret result);
           mret result
       | _ => raise bad_call
       end |}.

(** [not defaults], for [defaults] being [None] or a tuple. *)
Definition no_defaults (f : pyfunction) : outcome bool :=
  match argspec_defaults f with
  | None | Some [] => Ret true
  | Some (_ :: _) => Ret false
  end.

(** [args[1] != 'simgr']; a function of fewer than two parameters has no
    [args[1]]. *)
Definition args_1_is_not_simgr (f : pyfunction) : outcome bool :=
  match argspec_args f !! 1%nat with
  | Some name => Ret (negb (bool_decide (name = "simgr")))
  | None => Raise (IndexError "list index out of range")
  end.

(** [inspect.getargspec(a)], as Python 3 has it: [TypeError] on what it
    cannot look into, [ValueError] on keyword-only parameters or
    annotations. *)
Definition getargspec (a : attr) : outcome pyfunction :=
  match a with
  | AttrValue _ => Raise (TypeError "unsupported callable")
  | AttrFunction f =>
      if argspec_kwonly_or_annotations f then
        Raise (ValueError "Function has keyword-only parameters or annotations, use inspect.signature() API which can support them")
      else Ret f
  end.

(** One statement
    [if key in attrs and test(inspect.getargspec(attrs[key])):
         attrs[key] = factory(attrs[key])]. *)
Definition adapt (key : string) (test : pyfunction → outcome bool)
    (factory : pyfunction → pyfunction) (attrs : gmap string attr)
    : outcome (gmap string attr) :=
  match attrs !! key with
  | None => Ret attrs
  | Some a =>
      match getargspec a with
      | Raise e => Raise e
      | Ret f =>
          match test f with
          | Raise e => Raise e
          | Ret true => Ret (<[key := AttrFunction (factory f)]> attrs)
          | Ret false => Ret attrs
          end
      end
  end.

(** The entry under [key] is absent, or one that [inspect.getargspec]
    accepts, with at least [min_args] parameters: what [__new__] can
    inspect without raising. *)
Definition inspectable (min_args : nat) (attrs : gmap string attr) (key : string) : bool :=
  match attrs !! key with
  | None => true
  | Some (AttrFunction f) =>
      negb (argspec_kwonly_or_annotations f)
      && bool_decide (min_args ≤ List.length (argspec_args f))%nat
  | Some (AttrValue _) => false
  end.

Definition __new__ (name : string) (bases : list string) (attrs : gmap string attr)
    : outcome pyclass :=
  let adapted :=
    if bool_decide (name ≠ "ExplorationTechniqueCompat") then
      match adapt "step" no_defaults _step_factory attrs with
      | Raise e => Raise e
      | Ret attrs =>
          match adapt "filter" args_1_is_not_simgr _filter_factory attrs with
          | Raise e => Raise e
          | Ret attrs =>
              adapt "step_state" args_1_is_not_simgr _step_state_factory attrs
          end
      end
    else Ret attrs in
  match adapted with
  | Raise e => Raise e
  | Ret attrs =>
      Ret {| class_name_of := name; class_bases := bases; class_attrs := attrs |}
  end.

End ExplorationTechniqueMeta.

(** *** Sample inputs *)

Definition vex_engine : Engine :=
  {| engine_class := "SimEngineVEX";
     engine_mro := ["SimEngineVEX"; "SimEngine"; "object"] |}.

Definition hook_engine : Engine :=
  {| engine_class := "SimEngineHook";
     engine_mro := ["SimEngineHook"; "SimEngineProcedure"; "SimEngine"; "object"] |}.

(** Technique object 1 belongs to a project lifting with VEX, technique
    object 2 to one whose default engine is not a VEX engine; technique
    object 3 has [project = None]. *)
Definition sample_world : World :=
  {| technique_project :=
       {[ 1%N := {| default_engine := vex_engine |};
          2%N := {| default_engine := hook_engine |} ]};
     globals := ∅ |}.

(** A state at 0x400000 whose block has three instructions. *)
Definition sample_state : SimState :=
  {| addr := 0x400000;
     block := Ret {| instruction_addrs := [0x400000; 0x400004; 0x400009] |} |}.

(** A state whose block cannot be lifted: the lifter raises a [SimError]
    subclass. *)
Definition unliftable_state : SimState :=
  {| addr := 0x500000;
     block := Raise (builtin_error "SimEngineError" ["SimError"] "No bytes in memory") |}.

(** A state for which fetching the block fails with an exception that is
    neither an [AngrError] nor a [SimError]. *)
Definition keyerror_state : SimState :=
  {| addr := 0x500000;
     block := Raise (KeyError "4096") |}.

(** A user predicate with a hit counter in a module global:
    [def every_other(state): global hits; hits += 1; return hits % 2 == 1]. *)
Definition every_other (state : SimState) : M World pyval :=
  λ w, let hits := default 0 (globals w !! "hits") + 1 in
       (Ret (VBool (hits mod 2 =? 1)),
        {| technique_project := technique_project w;
           globals := <["hits" := hits]> (globals w) |}).

(** A technique written against the old interface:
    [def filter(self, state): return 'found' if state.addr == 0x400000 else None]. *)
Definition legacy_filter : pyfunction :=
  {| argspec_args := ["self"; "state"];
     argspec_defaults := None;
     argspec_kwonly_or_annotations := false;
     func_call := λ args,
       match args with
       | ArgsLegacyFilter self state =>
           mret (if addr state =? 0x400000 then RStash "found" else RNone)
       | _ => raise bad_call
       end |}.

Definition legacy_attrs : gmap string attr :=
  {[ "__module__" := AttrValue (VStr "angr.exploration_techniques.legacy");
     "filter" := AttrFunction legacy_filter ]}.

(** A manager whose default hooks count their calls in a global. *)
Definition count_call (name : string) (result : hook_result) : M World hook_result :=
  λ w, (Ret result,
        {| technique_project := technique_project w;
           globals := <[name := default 0 (globals w !! name) + 1]> (globals w) |}).

Definition counting_simgr : SimulationManager :=
  {| simgr_step := λ _ _, count_call "step" RManager;
     simgr_filter := λ _ _, count_call "filter" RNone;
     simgr_step_state := λ _ _ _, count_call "step_state" (RStashes ∅) |}.

(** *** The default hooks of [ExplorationTechnique] *)
Module ExplorationTechnique.

(** [def step(self, simgr, stash='active', **kwargs):
         return simgr.step(stash=stash, **kwargs)] *)
Definition step : pyfunction :=
  {| argspec_args := ["self"; "simgr"; "stash"];
     argspec_defaults := Some [VStr "active"];
     argspec_kwonly_or_annotations := false;
     func_call := λ args,
       match args with
       | ArgsStep self simgr stash kwargs =>
           simgr_step simgr (default (VStr "active") stash) kwargs
       | _ => raise bad_call
       end |}.

(** [def filter(self, simgr, state, filter_func=None):
         return simgr.filter(state, filter_func=filter_func)] *)
Definition filter : pyfunction :=
  {| argspec_args := ["self"; "simgr"; "state"; "filter_func"];
     argspec_defaults := Some [VNone];
     argspec_kwonly_or_annotations := false;
     func_call := λ args,
       match args with
       | ArgsFilter self simgr state filter_func =>
           simgr_filter simgr state (default VNone filter_func)
       | _ => raise bad_call
       end |}.

(** [def step_state(self, simgr, state, successor_func=None, **kwargs):
         return simgr.step_state(state, successor_func=successor_func, **kwargs)] *)
Definition step_state : pyfunction :=
  {| argspec_args := ["self"; "simgr"; "state"; "successor_func"];
     argspec_defaults := Some [VNone];
     argspec_kwonly_or_annotations := false;
     func_call := λ args,
       match args with
       | ArgsStepState self simgr state successor_func kwargs =>
           simgr_step_state simgr state (default VNone successor_func) kwargs
       | _ => raise bad_call
       end |}.

(** The three hooks as entries of the class body. *)
Definition hooks : gmap string attr :=
  {[ "step" := AttrFunction step;
     "filter" := AttrFunction filter;
     "step_state" := AttrFunction step_state ]}.

End ExplorationTechnique.

(** The entry under [key] is absent or one that [inspect.getargspec]
    accepts and that the metaclass takes for one of the current interface:
    for [step], one with a default; for [filter] and [step_state], one whose
    second parameter is [simgr]. *)
Definition current_interface (attrs : gmap string attr) (key : string) : bool :=
  match attrs !! key with
  | None => true
  | Some (AttrValue _) => false
  | Some (AttrFunction f) =>
      negb (argspec_kwonly_or_annotations f)
      && if bool_decide (key = "step") then
           match argspec_defaults f with Some (_ :: _) => true | _ => false end
         else
           match argspec_args f !! 1%nat with
           | Some name => bool_decide (name = "simgr")
           | None => false
           end
  end.

(** A hook that [inspect.getargspec] refuses:
    [def filter(self, state: SimState): return None]. *)
Definition annotated_filter : pyfunction :=
  {| argspec_args := ["self"; "state"];
     argspec_defaults := None;
     argspec_kwonly_or_annotations := true;
     func_call := λ args,
       match args with
       | ArgsLegacyFilter self state => mret RNone
       | _ => raise bad_call
       end |}.

(** A technique of the old interface with all three hooks:
    [def step(self, simgr, stash, **kwargs):
         return simgr.step(stash=stash, **kwargs)] and
    [def step_state(self, state, **kwargs): return None]. *)
Definition legacy_step : pyfunction :=
  {| argspec_args := ["self"; "simgr"; "stash"];
     argspec_defaults := None;
     argspec_kwonly_or_annotations := false;
     func_call := λ args,
       match args with
       | ArgsStep self simgr (Some stash) kwargs => simgr_step simgr stash kwargs
       | _ => raise bad_call
       end |}.

Definition legacy_step_state : pyfunction :=
  {| argspec_args := ["self"; "state"];
     argspec_defaults := None;
     argspec_kwonly_or_annotations := false;
     func_call := λ args,
       match args with
       | ArgsLegacyStepState self state kwargs => mret RNone
       | _ => raise bad_call
       end |}.

Definition legacy_hooks : gmap string attr :=
  {[ "step" := AttrFunction legacy_step;
     "filter" := AttrFunction legacy_filter;
     "step_state" := AttrFunction legacy_step_state;
     "__doc__" := AttrValue (VStr "An old technique.") ]}.

(** *** Class statements *)

(** A class object with the metaclass that made it. *)
Record class_object := {
  class_record : pyclass;
  class_metaclass : string
}.

(** The statement [class name(bases): body] of Python 3, without a
    [metaclass] keyword, as this module and its techniques write it: the
    class is made by the metaclass of its bases, [type] when no base has
    another one.  An entry [__metaclass__] of the body is an attribute like
    any other and chooses nothing. *)
Definition class_statement (name : string) (bases : list class_object)
    (attrs : gmap string attr) : outcome class_object :=
  let base_names := (λ base, class_name_of (class_record base)) <$> bases in
  if existsb (λ base, bool_decide (class_metaclass base = "ExplorationTechniqueMeta"))
       bases
  then
    match ExplorationTechniqueMeta.__new__ name base_names attrs with
    | Ret cls =>
        Ret {| class_record := cls; class_metaclass := "ExplorationTechniqueMeta" |}
    | Raise e => Raise e
    end
  else
    Ret {| class_record :=
             {| class_name_of := name; class_bases := base_names;
                class_attrs := attrs |};
           class_metaclass := "type" |}.

(** The body of [class ExplorationTechnique:], reduced to the attribute
    [__metaclass__ = ExplorationTechniqueMeta] (a class object, an instance
    of [type]) and the three hooks above. *)
Definition ExplorationTechnique_body : gmap string attr :=
  <["__metaclass__" := AttrValue (VObject "type")]> ExplorationTechnique.hooks.

(** The class [ExplorationTechnique], as its class statement makes it. *)
Definition ExplorationTechnique_class : class_object :=
  {| class_record :=
       {| class_name_of := "ExplorationTechnique"; class_bases := [];
          class_attrs := ExplorationTechnique_body |};
     class_metaclass := "type" |}.

End exploration_techniques.

(** ** [angr/procedures/posix/select.py] *)
Module select.

(** *** External collaborators: bit-vector expressions *)

(** Bit-vector expressions, as far as [run] builds and inspects them.
    [BVS name uid size] is the symbol that [solver.BVS(name, size)] made when
    the counter of fresh names stood at [uid]. *)
Inductive BV :=
| BVV (value : Z) (size : Z)
| BVS (name : string) (uid : N) (size : Z)
| Add (a b : BV)
| Concat (a b : BV)
| Extract (high low : Z) (e : BV).

(** [len(e)], in bits. *)
Fixpoint length (e : BV) : Z :=
  match e with
  | BVV _ size | BVS _ _ size => size
  | Add a _ => length a
  | Concat a b => length a + length b
  | Extract high low _ => high - low + 1
  end.

(** [e.symbolic], for an expression [e] as the library keeps it: does a
    symbol occur in [e]? *)
Fixpoint symbolic (e : BV) : bool :=
  match e with
  | BVV _ _ => false
  | BVS _ _ _ => true
  | Add a b | Concat a b => symbolic a || symbolic b
  | Extract _ _ e => symbolic e
  end.

(** The unsigned value of [e] when every symbol is given a value. *)
Fixpoint value_under (model : string → N → Z) (e : BV) : Z :=
  match e with
  | BVV value size => value mod 2 ^ size
  | BVS name uid size => model name uid mod 2 ^ size
  | Add a b => (value_under model a + value_under model b) mod 2 ^ length a
  | Concat a b => value_under model a * 2 ^ length b + value_under model b
  | Extract high low e => (value_under model e / 2 ^ low) mod 2 ^ (high - low + 1)
  end.

(** The value of an expression without symbols. *)
Definition concrete_value (e : BV) : Z := value_under (λ _ _, 0) e.

Definition ClaripyOperationError :=
  builtin_error "ClaripyOperationError" ["ClaripyError"].

(** [Extract(high, low, e)], with the bounds check of the operation. *)
Definition extract (high low : Z) (e : BV) : outcome BV :=
  if (high <? 0) || (low <? 0) then
    Raise (ClaripyOperationError "Extract high and low must be nonnegative")
  else if high <? low then
    Raise (ClaripyOperationError "Extract low must be <= high")
  else if length e <=? high then
    Raise (ClaripyOperationError "Extract bound must be less than BV size")
  else Ret (Extract high low e).

(** [e[i]]: one bit. *)
Definition getitem_bit (e : BV) (i : Z) : outcome BV := extract i i e.

(** [e[start:stop]]: a missing [start] is the top bit, a missing [stop] is
    bit 0, and a negative bound counts from the length. *)
Definition getitem_slice (e : BV) (start stop : option Z) : outcome BV :=
  let left := default (length e - 1) start in
  let right := default 0 stop in
  let left := if left <? 0 then length e + left else left in
  let right := if right <? 0 then length e + right else right in
  extract left right e.

(** [e + n] for a Python integer [n]. *)
Definition add_int (e : BV) (n : Z) : BV := Add e (BVV n (length e)).

(** *** Python lists and integers *)

(** [l[i]] *)
Definition list_getitem {A} (l : list A) (i : Z) : outcome A :=
  let len := Z.of_nat (List.length l) in
  let j := if i <? 0 then len + i else i in
  if (j <? 0) || (len <=? j) then Raise (IndexError "list index out of range")
  else match l !! Z.to_nat j with
       | Some x => Ret x
       | None => Raise (IndexError "list index out of range")
       end.

(** [l[i] = x] *)
Definition list_setitem {A} (l : list A) (i : Z) (x : A) : outcome (list A) :=
  let len := Z.of_nat (List.length l) in
  let j := if i <? 0 then len + i else i in
  if (j <? 0) || (len <=? j) then
    Raise (IndexError "list assignment index out of range")
  else Ret (<[Z.to_nat j := x]> l).

(** [a // b] *)
Definition floordiv (a b : Z) : outcome Z :=
  if b =? 0 then Raise (ZeroDivisionError "integer division or modulo by zero")
  else Ret (a / b).

(** [a % b] *)
Definition modulo (a b : Z) : outcome Z :=
  if b =? 0 then Raise (ZeroDivisionError "integer division or modulo by zero")
  else Ret (a mod b).

(** [range(start, stop)] *)
Definition range (start stop : Z) : list Z := seqZ start (stop - start).

(** [for x in l: acc = body(x, acc)] *)
Fixpoint for_each {W A S} (l : list A) (body : A → S → M W S) (acc : S) : M W S :=
  match l with
  | [] => mret acc
  | x :: l => acc ← body x acc; for_each l body acc
  end.

(** *** The procedure *)

(** What the two assertions of [run] ask of [writefds] and [exceptfds]. *)
Definition concrete_zero (e : BV) : bool :=
  negb (symbolic e) && (concrete_value e =? 0).

(** The test [bit.symbolic or self.state.solver.eval(bit) == 1] of the
    second loop, for a [bit] whose value, when it has no symbol, is its
    concrete value. *)
Definition bit_marked (bit : BV) : bool :=
  symbolic bit || (concrete_value bit =? 1).

Inductive Endness := Iend_LE | Iend_BE.

(** [self.arch] *)
Record Arch := {
  bits : Z;
  bytes : Z;
  memory_endness : Endness
}.

Section Procedure.

(** The memory plugin of the state, with its [load] and [store], the
    value the solver gives to an expression with symbols, and the
    simplifier of the expression library: the library simplifies an
    expression when it builds it, and [simplified e] is what it keeps for
    [e]. *)
Variable Memory : Type.
Variable memory_load : BV → Z → Endness → Memory → outcome BV * Memory.
Variable memory_store : BV → BV → Endness → Memory → outcome () * Memory.
Variable solver_solution : BV → outcome Z.
Variable simplified : BV → BV.

(** [self.state]: the memory and the counter of fresh symbol names. *)
Record SimState := {
  memory : Memory;
  bvs_counter : N
}.

(** [self.state.memory.load(addr, size, endness=endness)] *)
Definition load (addr : BV) (size : Z) (endness : Endness) : M SimState BV :=
  λ st, let '(r, m) := memory_load addr size endness (memory st) in
        (r, {| memory := m; bvs_counter := bvs_counter st |}).

(** [self.state.memory.store(addr, data, endness=endness)] *)
Definition store (addr data : BV) (endness : Endness) : M SimState () :=
  λ st, let '(r, m) := memory_store addr data endness (memory st) in
        (r, {| memory := m; bvs_counter := bvs_counter st |}).

(** [self.state.solver.BVS(name, size)]: a symbol never made before. *)
Definition solver_BVS (name : string) (size : Z) : M SimState BV :=
  λ st, (Ret (BVS name (bvs_counter st) size),
         {| memory := memory st; bvs_counter := N.succ (bvs_counter st) |}).

(** [self.state.solver.eval(e)]: an expression without symbols has one
    value; for the others the solver chooses. *)
Definition solver_eval (e : BV) : M SimState Z :=
  if symbolic e then lift_outcome (solver_solution e)
  else mret (concrete_value e).

(** [assert not e.symbolic and self.state.solver.eval(e) == 0] *)
Definition assert_concrete_zero (e : BV) : M SimState () :=
  ok ← (if negb (symbolic e) then v ← solver_eval e; mret (v =? 0)
        else mret false);
  if ok : bool then mret () else raise (AssertionError EmptyString).

(** The body of the second loop, for one [i].  Whether [bit] has a symbol
    is asked of the expression that the library keeps for
    [long_array[long_pos][bit_offset]]; the words that are put together are
    written as they are built, equal in length and value to what the
    library keeps for them. *)
Definition mark_bit (arch_bits : Z) (i : Z) (long_array : list BV)
    : M SimState (list BV) :=
  long_pos ← lift_outcome (floordiv i arch_bits);
  bit_offset ← lift_outcome (modulo i arch_bits);
  long ← lift_outcome (list_getitem long_array long_pos);
  bit ← lift_outcome (getitem_bit long bit_offset);
  let bit := simplified bit in
  hit ← (if symbolic bit then mret true
         else v ← solver_eval bit; mret (v =? 1));
  if hit : bool then
    long ← lift_outcome (list_getitem long_array long_pos);
    high ← lift_outcome (getitem_slice long (Some (arch_bits - 1)) (Some (bit_offset + 1)));
    fd_state ← solver_BVS "fd_state" 1;
    long ← lift_outcome (list_getitem long_array long_pos);
    low ← lift_outcome (getitem_slice long (Some (bit_offset - 1)) None);
    lift_outcome (list_setitem long_array long_pos (Concat (Concat high fd_state) low))
  else mret long_array.

(** [run], from the statement after the two assertions on. *)
Definition run_body (arch : Arch) (nfds readfds : BV) : M SimState BV :=
  nfds_v ← solver_eval nfds;
  let arch_bits := bits arch in
  let arch_bytes := bytes arch in
  long_array_size ← lift_outcome (floordiv ((nfds_v - 1) + 7) arch_bits);
  long_array ← for_each (range 0 long_array_size)
    (λ offset long_array,
       long ← load (add_int readfds (offset * arch_bytes)) arch_bytes (memory_endness arch);
       mret (long_array ++ [long]))
    [];
  long_array ← for_each (range 0 (nfds_v - 1)) (mark_bit arch_bits) long_array;
  _ ← for_each (range 0 long_array_size)
    (λ offset (_ : ()),
       data ← lift_outcome (list_getitem long_array offset);
       store (add_int readfds (offset * arch_bytes)) data (memory_endness arch))
    ();
  select_ret ← solver_BVS "select_ret" 31;
  let retval := Concat (BVV 0 1) select_ret in
  mret retval.

Definition run (arch : Arch) (nfds readfds writefds exceptfds timeout : BV)
    : M SimState BV :=
  _ ← assert_concrete_zero writefds;
  _ ← assert_concrete_zero exceptfds;
  run_body arch nfds readfds.

End Procedure.

Arguments memory {Memory} _.
Arguments bvs_counter {Memory} _.

(** *** Sample inputs *)

(** A memory that holds zeros and keeps a log of its accesses. *)
Inductive access :=
| Load (addr : BV) (size : Z)
| Store (addr data : BV).

Definition logged_load (addr : BV) (size : Z) (endness : Endness)
    (log : list access) : outcome BV * list access :=
  (Ret (BVV 0 (size * 8)), log ++ [Load addr size]).

Definition logged_store (addr data : BV) (endness : Endness)
    (log : list access) : outcome () * list access :=
  (Ret (), log ++ [Store addr data]).

(** A solver that gives 0 to every symbol. *)
Definition zero_solution (e : BV) : outcome Z := Ret (concrete_value e).

(** A simplifier for the examples.  For [Extract(high, low, e)] it keeps
    the whole of [e] when all its bits are asked for, the bits of a value,
    the part of a concatenation that holds the bits (simplified in turn),
    and one extraction for an extraction of an extraction; every other
    expression is kept as built. *)
Fixpoint extract_simplifier (high low : Z) (e : BV) : BV :=
  if high - low + 1 =? length e then e
  else
    match e with
    | BVV value _ =>
        BVV ((value / 2 ^ low) mod 2 ^ (high - low + 1)) (high - low + 1)
    | Concat a b =>
        if high <? length b then extract_simplifier high low b
        else if length b <=? low then
          extract_simplifier (high - length b) (low - length b) a
        else Extract high low e
    | Extract _ inner_low x =>
        extract_simplifier (inner_low + high) (inner_low + low) x
    | BVS _ _ _ | Add _ _ => Extract high low e
    end.

Definition sample_simplified (e : BV) : BV :=
  match e with
  | Extract high low x => extract_simplifier high low x
  | _ => e
  end.

(** A word with a symbol in its top bit only, above the value 5 (bits 0
    and 2 set). *)
Definition partly_symbolic_word : BV :=
  Concat (BVS "readfds" 0 1) (BVV 5 63).

Definition amd64 : Arch := {| bits := 64; bytes := 8; memory_endness := Iend_LE |}.

Definition fresh_state : SimState (list access) :=
  {| memory := []; bvs_counter := 0 |}.

(** [select(nfds, readfds, NULL, NULL, NULL)] on the sample memory. *)
Definition sample_run (nfds : Z) : outcome BV * SimState (list access) :=
  run (list access) logged_load logged_store zero_solution sample_simplified amd64
    (BVV nfds 64) (BVV 0x7ffe0000 64) (BVV 0 64) (BVV 0 64) (BVV 0 64)
    fresh_state.

End select.

(** ** The monad, step by step *)

Lemma bind_eq {W A B} (m : M W A) (k : A → M W B) (w : W) :
  (m ≫= k) w
  = match m w with
    | (Ret a, w') => k a w'
    | (Raise e, w') => (Raise e, w')
    end.
Proof. reflexivity. Qed.

Lemma bind_ret {W A B} (m : M W A) (k : A → M W B) (w w' : W) a :
  m w = (Ret a, w') → (m ≫= k) w = k a w'.
Proof. intros H. rewrite bind_eq, H. reflexivity. Qed.

Lemma bind_raise {W A B} (m : M W A) (k : A → M W B) (w w' : W) e :
  m w = (Raise e, w') → (m ≫= k) w = (Raise e, w').
Proof. intros H. rewrite bind_eq, H. reflexivity. Qed.

(** ** Properties of the condition compiler *)
Module exploration_techniques_proofs.
Import exploration_techniques.

Ltac unfold_monad :=
  unfold mbind, M_bind, mret, M_ret, raise, get_world, lift_outcome, try_except in *.

Lemma list_to_set_single (A : Z) : list_to_set [A] = ({[ A ]} : gset Z).
Proof. cbn. apply (right_id_L ∅ (∪)). Qed.

(** A tuple, a set or a list compiles to the closure over [set(condition)]. *)
Lemma compile_sequence self condition dflt S :
  isinstance_sequence condition = Some S →
  _condition_to_lambda self condition dflt
  = Ret (VFunction (condition_function self S), VSet S).
Proof.
  destruct condition; cbn; intros H; try discriminate;
    injection H as <-; reflexivity.
Qed.

(** An integer (or a boolean, which is one) compiles as its 1-tuple. *)
Lemma compile_int self condition dflt n :
  isinstance_int condition = Some n →
  _condition_to_lambda self condition dflt
  = Ret (VFunction (condition_function self {[ n ]}), VSet {[ n ]}).
Proof.
  destruct condition; cbn; intros H; try discriminate;
    injection H as <-; rewrite <- list_to_set_single; reflexivity.
Qed.

(** The compiler, branch by branch. *)
Lemma compile_unfold self condition dflt :
  _condition_to_lambda self condition dflt
  = match condition with
    | VNone => Ret (VFunction (constant_function dflt), VSet ∅)
    | VBool b =>
        Ret (VFunction (condition_function self {[ Z.b2z b ]}), VSet {[ Z.b2z b ]})
    | VInt n => Ret (VFunction (condition_function self {[ n ]}), VSet {[ n ]})
    | VTuple l | VList l =>
        Ret (VFunction (condition_function self (list_to_set l)), VSet (list_to_set l))
    | VSet s => Ret (VFunction (condition_function self s), VSet s)
    | VFunction f => Ret (VFunction f, VNone)
    | VStr _ | VObject _ => Raise (unsupported_condition condition)
    end.
Proof.
  destruct condition; try reflexivity;
    rewrite <- list_to_set_single; reflexivity.
Qed.

(** At an address of the set, the closure answers with that address. *)
Lemma condition_function_at self S state w :
  addr state ∈ S →
  condition_function self S state w = (Ret (VSet {[ addr state ]}), w).
Proof.
  intros Hin. unfold condition_function.
  rewrite bool_decide_eq_true_2 by assumption. reflexivity.
Qed.

(** Elsewhere, under a VEX engine, the closure answers from the block. *)
Lemma condition_function_probe self S state w project :
  addr state ∉ S →
  technique_project w !! self = Some project →
  isinstance_engine (default_engine project) "SimEngineVEX" = true →
  condition_function self S state w
  = match block state with
    | Ret b => (Ret (VSet (S ∩ list_to_set (instruction_addrs b))), w)
    | Raise e =>
        if isinstance_exn e "AngrError" || isinstance_exn e "SimError"
        then (Ret (VBool false), w)
        else (Raise e, w)
    end.
Proof.
  intros Hnotin Hproject Hvex. unfold condition_function.
  rewrite bool_decide_eq_false_2 by assumption.
  unfold project_default_engine. unfold_monad. rewrite Hproject, Hvex. cbn.
  destruct (block state) as [b|e]; [reflexivity|].
  unfold caught_by. cbn. rewrite orb_false_r. reflexivity.
Qed.

(** The closure never writes to the world. *)
Lemma condition_function_world self S state w :
  snd (condition_function self S state w) = w.
Proof.
  unfold condition_function, project_default_engine. unfold_monad.
  destruct (bool_decide _); [reflexivity|].
  destruct (technique_project w !! self) as [project|]; [|reflexivity].
  destruct (negb _); [reflexivity|].
  destruct (block state) as [b|e]; [reflexivity|].
  destruct (caught_by _ e); reflexivity.
Qed.

(** A state at an address of the condition matches with that address. *)
Example matcher_at_address :
  run_matcher 1 (VList [0x400000; 0x400100]) default_False sample_state sample_world
  = (Ret (VSet {[ 0x400000 ]}), sample_world).
Proof. vm_compute. reflexivity. Qed.

(** Under an engine that is not a VEX engine the block is not looked at. *)
Example matcher_without_vex :
  run_matcher 2 (VSet {[ 0x400004 ]}) default_False sample_state sample_world
  = (Ret (VBool false), sample_world).
Proof. vm_compute. reflexivity. Qed.

(** A technique whose [project] is still [None] cannot probe. *)
Example matcher_without_project :
  run_matcher 3 (VSet {[ 0x400004 ]}) default_False sample_state sample_world
  = (Raise (AttributeError "'NoneType' object has no attribute 'engines'"),
     sample_world).
Proof. vm_compute. reflexivity. Qed.

(** [True] is the integer 1. *)
Example matcher_of_True :
  _condition_to_lambda 1 (VBool true) VNone
  = Ret (VFunction (condition_function 1 {[ 1 ]}), VSet {[ 1 ]}).
Proof. by apply compile_int. Qed.

(** C1: for a tuple, set or list of addresses [S], a state whose address is
    not in [S], a project whose default engine is a VEX engine, and a block
    [b] of the state, the compiled predicate returns the set
    [S ∩ set(b.instruction_addrs)], which is falsy exactly when it is empty;
    for [S = {A, B}] and instruction addresses [{A, X, Y}], with [X] and [Y]
    different from [B], that set is [{A}]. *)
Theorem matcher_block_intersection self condition dflt S state w project b :
  isinstance_sequence condition = Some S →
  addr state ∉ S →
  technique_project w !! self = Some project →
  isinstance_engine (default_engine project) "SimEngineVEX" = true →
  block state = Ret b →
  ∃ predicate,
    _condition_to_lambda self condition dflt = Ret (predicate, VSet S) ∧
    call predicate state w
    = (Ret (VSet (S ∩ list_to_set (instruction_addrs b))), w) ∧
    (truthy (VSet (S ∩ list_to_set (instruction_addrs b))) = false
     ↔ S ∩ list_to_set (instruction_addrs b) = ∅) ∧
    (∀ A B X Y : Z,
       S = {[ A; B ]} →
       list_to_set (instruction_addrs b) = ({[ A; X; Y ]} : gset Z) →
       X ≠ B → Y ≠ B →
       call predicate state w = (Ret (VSet {[ A ]}), w)).
Proof.
  intros Hseq Hnotin Hproject Hvex Hblock.
  exists (VFunction (condition_function self S)).
  assert (Hcall : condition_function self S state w
                  = (Ret (VSet (S ∩ list_to_set (instruction_addrs b))), w)).
  { rewrite (condition_function_probe _ _ _ _ project) by assumption.
    rewrite Hblock. reflexivity. }
  split; [by apply compile_sequence|].
  split; [exact Hcall|].
  split.
  - cbn. rewrite negb_false_iff. apply bool_decide_eq_true.
  - intros A B X Y HS Haddrs HX HY. cbn. rewrite Hcall, Haddrs, HS.
    do 2 f_equal. f_equal. apply set_eq. set_solver.
Qed.

Lemma matcher_block_intersection_witness :
  let S : gset Z := {[ 0x400004; 0x400100 ]} in
  (addr sample_state ∉ S) ∧
  (∃ predicate,
    _condition_to_lambda 1 (VSet S) default_False = Ret (predicate, VSet S) ∧
    call predicate sample_state sample_world
    = (Ret (VSet (S ∩ list_to_set [0x400000; 0x400004; 0x400009])), sample_world) ∧
    (truthy (VSet (S ∩ list_to_set [0x400000; 0x400004; 0x400009])) = false
     ↔ S ∩ list_to_set [0x400000; 0x400004; 0x400009] = ∅) ∧
    (∀ A B X Y : Z,
       S = {[ A; B ]} →
       list_to_set [0x400000; 0x400004; 0x400009] = ({[ A; X; Y ]} : gset Z) →
       X ≠ B → Y ≠ B →
       call predicate sample_state sample_world = (Ret (VSet {[ A ]}), sample_world))).
Proof.
  intros S.
  assert (Hnotin : addr sample_state ∉ S)
    by (apply (bool_decide_unpack _); vm_compute; exact I).
  split; [exact Hnotin|].
  apply (matcher_block_intersection 1 (VSet S) default_False S sample_state
           sample_world {| default_engine := vex_engine |}
           {| instruction_addrs := [0x400000; 0x400004; 0x400009] |});
    [reflexivity | exact Hnotin | reflexivity | reflexivity | reflexivity].
Defined.

(** C2, as the code has it: when fetching the block raises [e] in the
    introspection path, the predicate returns [False] if [e] is an
    [AngrError] or a [SimError] (the two classes of the [except] clause),
    and [e] reaches the caller otherwise. *)
Theorem matcher_probe_failure self condition dflt S state w project e :
  isinstance_sequence condition = Some S →
  addr state ∉ S →
  technique_project w !! self = Some project →
  isinstance_engine (default_engine project) "SimEngineVEX" = true →
  block state = Raise e →
  ∃ predicate,
    _condition_to_lambda self condition dflt = Ret (predicate, VSet S) ∧
    call predicate state w
    = (if isinstance_exn e "AngrError" || isinstance_exn e "SimError"
       then Ret (VBool false) else Raise e, w) ∧
    truthy (VBool false) = false.
Proof.
  intros Hseq Hnotin Hproject Hvex Hblock.
  exists (VFunction (condition_function self S)).
  split; [by apply compile_sequence|].
  split; [|reflexivity]. cbn.
  rewrite (condition_function_probe _ _ _ _ project) by assumption.
  rewrite Hblock. destruct (_ || _); reflexivity.
Qed.

Lemma matcher_probe_failure_witness :
  let S : gset Z := {[ 0x400004; 0x400100 ]} in
  ∃ predicate,
    _condition_to_lambda 1 (VSet S) default_False = Ret (predicate, VSet S) ∧
    call predicate unliftable_state sample_world = (Ret (VBool false), sample_world) ∧
    truthy (VBool false) = false.
Proof.
  intros S.
  apply (matcher_probe_failure 1 (VSet S) default_False S unliftable_state
           sample_world {| default_engine := vex_engine |}
           (builtin_error "SimEngineError" ["SimError"] "No bytes in memory"));
    [reflexivity | | reflexivity | reflexivity | reflexivity].
  apply (bool_decide_unpack _); vm_compute; exact I.
Defined.

(** C2 as stated fails: a [KeyError] raised while fetching the block is
    not caught and reaches the caller of the predicate. *)
Lemma matcher_probe_failure_propagates :
  block keyerror_state = Raise (KeyError "4096") ∧
  run_matcher 1 (VSet {[ 0x400004; 0x400100 ]}) default_False
    keyerror_state sample_world
  = (Raise (KeyError "4096"), sample_world).
Proof. split; [reflexivity|]. vm_compute. reflexivity. Qed.

(** C4: an integer address [A] compiles to the same predicate and the same
    static address set as the set [{A}]; the static address set is [{A}],
    and at a state at address [A] the predicate returns the truthy set
    [{A}]. *)
Theorem single_address_is_singleton_set self (A : Z) dflt dflt' :
  _condition_to_lambda self (VInt A) dflt
  = _condition_to_lambda self (VSet {[ A ]}) dflt' ∧
  ∃ predicate,
    _condition_to_lambda self (VInt A) dflt = Ret (predicate, VSet {[ A ]}) ∧
    truthy (VSet {[ A ]}) = true ∧
    ∀ blk w,
      call predicate {| addr := A; block := blk |} w = (Ret (VSet {[ A ]}), w).
Proof.
  rewrite (compile_int self (VInt A) dflt A) by reflexivity.
  rewrite (compile_sequence self (VSet {[ A ]}) dflt' {[ A ]}) by reflexivity.
  split; [reflexivity|].
  eexists; split; [reflexivity|]. split.
  - cbn. apply negb_true_iff, bool_decide_eq_false. set_solver.
  - intros blk w. cbn. apply condition_function_at. cbn. set_solver.
Qed.

(** C5: condition [None] with default [d] compiles to a predicate that
    returns [d] at every state, with the empty static address set; without
    a default from the caller, it returns [False]. *)
Theorem none_condition_constant self dflt :
  ∃ predicate,
    _condition_to_lambda self VNone dflt = Ret (predicate, VSet ∅) ∧
    (∀ state w, call predicate state w = (Ret dflt, w)) ∧
    (∀ state w, run_matcher self VNone default_False state w = (Ret (VBool false), w)).
Proof.
  exists (VFunction (constant_function dflt)).
  split; [reflexivity|].
  split; intros state w; reflexivity.
Qed.

(** C6: a condition that is not [None], not an integer, not a tuple, set or
    list and not callable makes the compiler raise
    [AngrExplorationTechniqueError] with a message that contains the
    condition's class; nothing is returned. *)
Theorem unsupported_condition_raises self condition dflt :
  condition ≠ VNone →
  isinstance_int condition = None →
  isinstance_sequence condition = None →
  callable condition = false →
  _condition_to_lambda self condition dflt = Raise (unsupported_condition condition) ∧
  exn_class (unsupported_condition condition) = "AngrExplorationTechniqueError" ∧
  isinstance_exn (unsupported_condition condition) "AngrError" = true ∧
  (∃ before after,
     exn_msg (unsupported_condition condition)
     = before +:+ class_str condition +:+ after) ∧
  (∀ state w, run_matcher self condition dflt state w
              = (Raise (unsupported_condition condition), w)).
Proof.
  intros Hnone Hint Hseq Hcall.
  assert (Hraise : _condition_to_lambda self condition dflt
                   = Raise (unsupported_condition condition)).
  { destruct condition; try discriminate; try congruence; reflexivity. }
  split; [exact Hraise|].
  split; [reflexivity|]. split; [reflexivity|]. split.
  - eexists _, _. unfold unsupported_condition. cbn [exn_msg AngrExplorationTechniqueError builtin_error].
    reflexivity.
  - intros state w. unfold run_matcher. rewrite Hraise. reflexivity.
Qed.

Lemma unsupported_condition_raises_witness :
  _condition_to_lambda 1 (VStr "main") default_False
  = Raise (unsupported_condition (VStr "main")) ∧
  exn_msg (unsupported_condition (VStr "main"))
  = "ExplorationTechnique is unable to convert given type (<class 'str'>) to a callable condition function.".
Proof.
  split; [|reflexivity].
  apply (unsupported_condition_raises 1 (VStr "main") default_False);
    [discriminate | reflexivity | reflexivity | reflexivity].
Defined.

(** C7: a callable condition [f] is returned as the predicate, unchanged,
    with [None] as the static address set. *)
Theorem callable_condition_unchanged self f dflt :
  callable (VFunction f) = true ∧
  _condition_to_lambda self (VFunction f) dflt = Ret (VFunction f, VNone).
Proof. split; reflexivity. Qed.

(** C8, as the code has it: for a condition that is [None], an integer or
    a tuple, set or list, the compiled predicate does not write to the
    world, so a second application to the same state returns what the first
    returned; for a callable condition the predicate is the callable itself,
    and repeats its results exactly when the callable does. *)
Theorem static_matcher_deterministic self condition dflt predicate static_addrs :
  _condition_to_lambda self condition dflt = Ret (predicate, static_addrs) →
  (callable condition = true → predicate = condition) ∧
  (callable condition = false →
   ∀ state w,
     snd (call predicate state w) = w ∧
     call predicate state (snd (call predicate state w)) = call predicate state w).
Proof.
  intros Hcompile.
  assert (Hshape :
    (callable condition = true ∧ predicate = condition) ∨
    (callable condition = false ∧
     ∀ state w, snd (call predicate state w) = w)).
  { rewrite compile_unfold in Hcompile.
    destruct condition; try discriminate; injection Hcompile as <- <-;
      first [ left; split; reflexivity
            | right; split; [reflexivity|]; intros state w; cbn;
              first [ reflexivity | apply condition_function_world ] ]. }
  destruct Hshape as [[Hc ->]|[Hc Hworld]].
  - split; [reflexivity|]. rewrite Hc. discriminate.
  - split; [rewrite Hc; discriminate|].
    intros _ state w. split; [apply Hworld|]. rewrite Hworld. reflexivity.
Qed.

Lemma static_matcher_deterministic_witness :
  let predicate := VFunction (condition_function 1 {[ 0x400004 ]}) in
  snd (call predicate sample_state sample_world) = sample_world ∧
  call predicate sample_state (snd (call predicate sample_state sample_world))
  = call predicate sample_state sample_world.
Proof.
  intros predicate.
  apply (static_matcher_deterministic 1 (VInt 0x400004) default_False
           predicate (VSet {[ 0x400004 ]}));
    [|reflexivity].
  apply compile_int. reflexivity.
Defined.

(** C8 as stated fails for a callable condition: the predicate is the
    caller's function, and one that counts its calls answers [True] and
    then [False] on the same state. *)
Lemma callable_matcher_not_deterministic :
  let first := run_matcher 1 (VFunction every_other) default_False
                 sample_state sample_world in
  let second := run_matcher 1 (VFunction every_other) default_False
                  sample_state (snd first) in
  fst first = Ret (VBool true) ∧ fst second = Ret (VBool false).
Proof. vm_compute. split; reflexivity. Qed.

(** *** The compatibility layer *)

Import ExplorationTechniqueMeta.

(** What [adapt] leaves under the other keys. *)
Lemma adapt_lookup_ne key key' test factory attrs attrs' :
  key ≠ key' →
  adapt key test factory attrs = Ret attrs' →
  attrs' !! key' = attrs !! key'.
Proof.
  intros Hne. unfold adapt, getargspec.
  destruct (attrs !! key) as [[f|v]|]; try discriminate.
  - destruct (argspec_kwonly_or_annotations f); [discriminate|].
    destruct (test f) as [[]|]; try discriminate;
      intros [= <-]; [by rewrite lookup_insert_ne|reflexivity].
  - by intros [= <-].
Qed.

(** [adapt] succeeds on an entry that can be inspected. *)
Lemma adapt_step_returns attrs :
  inspectable 0 attrs "step" = true →
  ∃ attrs', adapt "step" no_defaults _step_factory attrs = Ret attrs'.
Proof.
  unfold inspectable, adapt, getargspec, no_defaults.
  destruct (attrs !! "step") as [[f|v]|]; try discriminate; [|eauto].
  destruct (argspec_kwonly_or_annotations f); [discriminate|]. intros _.
  destruct (argspec_defaults f) as [[|]|]; eauto.
Qed.

Lemma adapt_simgr_returns key factory attrs :
  inspectable 2 attrs key = true →
  ∃ attrs', adapt key args_1_is_not_simgr factory attrs = Ret attrs'.
Proof.
  unfold inspectable, adapt, getargspec, args_1_is_not_simgr.
  destruct (attrs !! key) as [[f|v]|]; try discriminate; [|eauto].
  destruct (argspec_kwonly_or_annotations f); [discriminate|]. cbn [negb andb].
  intros Hlen%bool_decide_eq_true.
  destruct (argspec_args f) as [|self [|name args]]; cbn in Hlen; try lia.
  cbn. destruct (negb _); eauto.
Qed.

(** The class named [ExplorationTechniqueCompat] keeps its body as
    written. *)
Example compat_class_kept :
  __new__ "ExplorationTechniqueCompat" ["ExplorationTechnique"] legacy_attrs
  = Ret {| class_name_of := "ExplorationTechniqueCompat";
           class_bases := ["ExplorationTechnique"];
           class_attrs := legacy_attrs |}.
Proof. reflexivity. Qed.

(** A class body with a [filter] that is not a function cannot be
    inspected. *)
Example filter_attribute_rejected :
  is_raise (__new__ "Broken" [] {[ "filter" := AttrValue VNone ]}) = true.
Proof. reflexivity. Qed.

(** Nor can one with a [filter] that has an annotation. *)
Example annotated_filter_rejected :
  __new__ "Annotated" ["ExplorationTechnique"]
    {[ "filter" := AttrFunction annotated_filter ]}
  = Raise (ValueError "Function has keyword-only parameters or annotations, use inspect.signature() API which can support them").
Proof. reflexivity. Qed.

(** The wrapped old filter decides at 0x400000 without the manager, and
    hands over to the manager elsewhere. *)
Example wrapped_filter_decides :
  func_call (_filter_factory legacy_filter)
    (ArgsFilter 1 counting_simgr sample_state None) sample_world
  = (Ret (RStash "found"), sample_world).
Proof. reflexivity. Qed.

Example wrapped_filter_falls_back :
  func_call (_filter_factory legacy_filter)
    (ArgsFilter 1 counting_simgr unliftable_state None) sample_world
  = (Ret RNone,
     {| technique_project := technique_project sample_world;
        globals := {[ "filter" := 1 ]} |}).
Proof. vm_compute. reflexivity. Qed.

(** C3: a class statement never reaches the metaclass.  The class
    [ExplorationTechnique] is made by [type], since its [__metaclass__]
    entry chooses nothing, and so is every class with [ExplorationTechnique]
    as its only base: whatever its body, the body is stored as written.
    The old-interface [filter] of such a technique is still the
    two-parameter function, and called as the manager calls the hook, with
    [(self, simgr, state, filter_func)], it raises [TypeError] instead of
    falling back to [simgr.filter]. *)
Theorem legacy_filter_never_wrapped name attrs :
  class_statement "ExplorationTechnique" [] ExplorationTechnique_body
  = Ret ExplorationTechnique_class ∧
  class_statement name [ExplorationTechnique_class] attrs
  = Ret {| class_record :=
             {| class_name_of := name; class_bases := ["ExplorationTechnique"];
                class_attrs := attrs |};
           class_metaclass := "type" |} ∧
  (∃ cls,
     class_statement "Legacy" [ExplorationTechnique_class] legacy_attrs = Ret cls ∧
     class_attrs (class_record cls) !! "filter" = Some (AttrFunction legacy_filter) ∧
     ∀ self simgr state filter_func w,
       func_call legacy_filter (ArgsFilter self simgr state filter_func) w
       = (Raise bad_call, w)).
Proof.
  split; [reflexivity|]. split; [reflexivity|].
  eexists. split; [reflexivity|]. split; reflexivity.
Qed.

(** X25: when [__new__] is called for a class other than
    [ExplorationTechniqueCompat] whose [filter] can be inspected (no
    keyword-only parameter, no annotation) and has a second parameter that
    is not [simgr], and whose [step] and [step_state] can be inspected, it
    stores [_filter_factory(filter)] under [filter].  Called with
    [(self, simgr, state, filter_func)], the wrapper calls the old filter
    with [(self, state)]; when that returns [None] it returns what
    [simgr.filter(state, filter_func=filter_func)] returns, from the world
    the old filter left; when that returns anything else (or raises), the
    wrapper returns (or raises) the same and the manager is not called. *)
Theorem legacy_filter_wrapped name bases attrs func param :
  name ≠ "ExplorationTechniqueCompat" →
  attrs !! "filter" = Some (AttrFunction func) →
  argspec_kwonly_or_annotations func = false →
  argspec_args func !! 1%nat = Some param →
  param ≠ "simgr" →
  inspectable 0 attrs "step" = true →
  inspectable 2 attrs "step_state" = true →
  ∃ cls,
    __new__ name bases attrs = Ret cls ∧
    class_attrs cls !! "filter" = Some (AttrFunction (_filter_factory func)) ∧
    ∀ self simgr state filter_func w,
      func_call (_filter_factory func) (ArgsFilter self simgr state filter_func) w
      = match func_call func (ArgsLegacyFilter self state) w with
        | (Ret RNone, w') => simgr_filter simgr state (default VNone filter_func) w'
        | (Ret decision, w') => (Ret decision, w')
        | (Raise e, w') => (Raise e, w')
        end.
Proof.
  intros Hname Hfilter Hplain Hparam Hsimgr Hstep Hstep_state.
  destruct (adapt_step_returns attrs Hstep) as [attrs1 H1].
  assert (Hfilter1 : attrs1 !! "filter" = Some (AttrFunction func)).
  { rewrite (adapt_lookup_ne "step" "filter" _ _ _ _ ltac:(discriminate) H1).
    exact Hfilter. }
  assert (H2 : adapt "filter" args_1_is_not_simgr _filter_factory attrs1
               = Ret (<["filter" := AttrFunction (_filter_factory func)]> attrs1)).
  { unfold adapt, getargspec, args_1_is_not_simgr.
    rewrite Hfilter1, Hplain, Hparam.
    rewrite bool_decide_eq_false_2 by assumption. reflexivity. }
  assert (Hstep_state2 :
    inspectable 2 (<["filter" := AttrFunction (_filter_factory func)]> attrs1)
      "step_state" = true).
  { unfold inspectable in *.
    rewrite lookup_insert_ne by discriminate.
    rewrite (adapt_lookup_ne "step" "step_state" _ _ _ _ ltac:(discriminate) H1).
    exact Hstep_state. }
  destruct (adapt_simgr_returns "step_state" _step_state_factory _ Hstep_state2)
    as [attrs3 H3].
  exists {| class_name_of := name; class_bases := bases; class_attrs := attrs3 |}.
  split; [|split].
  - unfold __new__. rewrite bool_decide_eq_true_2 by assumption.
    rewrite H1, H2, H3. reflexivity.
  - cbn. rewrite (adapt_lookup_ne "step_state" "filter" _ _ _ _ ltac:(discriminate) H3).
    apply lookup_insert_eq.
  - intros self simgr state filter_func w. cbn. unfold_monad.
    destruct (func_call func (ArgsLegacyFilter self state) w) as [[result|e] w'];
      [|reflexivity].
    destruct result; cbn; try reflexivity.
    destruct (simgr_filter simgr state (default VNone filter_func) w') as [[?|?] ?];
      reflexivity.
Qed.

Lemma legacy_filter_wrapped_witness :
  ∃ cls,
    __new__ "Legacy" ["ExplorationTechnique"] legacy_attrs = Ret cls ∧
    class_attrs cls !! "filter" = Some (AttrFunction (_filter_factory legacy_filter)) ∧
    ∀ self simgr state filter_func w,
      func_call (_filter_factory legacy_filter) (ArgsFilter self simgr state filter_func) w
      = match func_call legacy_filter (ArgsLegacyFilter self state) w with
        | (Ret RNone, w') => simgr_filter simgr state (default VNone filter_func) w'
        | (Ret decision, w') => (Ret decision, w')
        | (Raise e, w') => (Raise e, w')
        end.
Proof.
  apply (legacy_filter_wrapped "Legacy" ["ExplorationTechnique"] legacy_attrs
           legacy_filter "state");
    [discriminate | reflexivity | reflexivity | reflexivity | discriminate
    | reflexivity | reflexivity].
Defined.

End exploration_techniques_proofs.

(** ** Properties of [select.run] *)
Module select_proofs.
Import select.

Section Procedure.

Context (Memory : Type).
Context (memory_load : BV → Z → Endness → Memory → outcome BV * Memory).
Context (memory_store : BV → BV → Endness → Memory → outcome () * Memory).
Context (solver_solution : BV → outcome Z).
Context (simplified : BV → BV).

Local Abbreviation run :=
  (run Memory memory_load memory_store solver_solution simplified).
Local Abbreviation run_body :=
  (run_body Memory memory_load memory_store solver_solution simplified).
Local Abbreviation mark_bit := (mark_bit Memory solver_solution simplified).
Local Abbreviation assert_concrete_zero := (assert_concrete_zero Memory solver_solution).
Local Abbreviation solver_eval := (solver_eval Memory solver_solution).

Ltac unfold_monad :=
  unfold mbind, M_bind, mret, M_ret, raise, get_world, lift_outcome in *.

(** An assertion passes on a concrete zero and fails on everything else;
    either way the state is as it was. *)
Lemma assert_concrete_zero_spec e (st : SimState Memory) :
  assert_concrete_zero e st
  = (if concrete_zero e then Ret () else Raise (AssertionError EmptyString), st).
Proof.
  unfold select.assert_concrete_zero, select.solver_eval, concrete_zero.
  unfold_monad. destruct (symbolic e); cbn; [reflexivity|].
  destruct (concrete_value e =? 0); reflexivity.
Qed.

(** [run] is its two assertions, then its body. *)
Lemma run_unfold arch nfds readfds writefds exceptfds timeout
    (st : SimState Memory) :
  run arch nfds readfds writefds exceptfds timeout st
  = if concrete_zero writefds && concrete_zero exceptfds
    then run_body arch nfds readfds st
    else (Raise (AssertionError EmptyString), st).
Proof.
  unfold select.run. rewrite bind_eq, assert_concrete_zero_spec.
  destruct (concrete_zero writefds); cbn [andb]; [|reflexivity].
  rewrite bind_eq, assert_concrete_zero_spec.
  destruct (concrete_zero exceptfds); reflexivity.
Qed.

(** C9: [run] goes on to the statements after the assertions exactly when
    [writefds] and [exceptfds] are both without symbols and of value 0
    (then no assertion fails); in every other call it raises
    [AssertionError], and the state, whatever the memory is and whatever
    its [load] and [store] do, is the one [run] was given: nothing was
    loaded, stored or made. *)
Theorem select_asserts arch nfds readfds writefds exceptfds timeout
    (st : SimState Memory) :
  (concrete_zero writefds && concrete_zero exceptfds
   = negb (symbolic writefds) && (concrete_value writefds =? 0)
     && (negb (symbolic exceptfds) && (concrete_value exceptfds =? 0))) ∧
  assert_concrete_zero writefds st
  = (if concrete_zero writefds then Ret ()
     else Raise (AssertionError EmptyString), st) ∧
  assert_concrete_zero exceptfds st
  = (if concrete_zero exceptfds then Ret ()
     else Raise (AssertionError EmptyString), st) ∧
  run arch nfds readfds writefds exceptfds timeout st
  = if concrete_zero writefds && concrete_zero exceptfds
    then run_body arch nfds readfds st
    else (Raise (AssertionError EmptyString), st).
Proof.
  split; [reflexivity|].
  split; [apply assert_concrete_zero_spec|].
  split; [apply assert_concrete_zero_spec|].
  apply run_unfold.
Qed.

(** The first round of the second loop finds [long_array] empty. *)
Lemma mark_bit_empty arch_bits (st : SimState Memory) :
  arch_bits ≠ 0 →
  mark_bit arch_bits 0 [] st = (Raise (IndexError "list index out of range"), st).
Proof.
  intros Hbits. unfold select.mark_bit, floordiv, modulo. unfold_monad.
  rewrite (proj2 (Z.eqb_neq _ _) Hbits).
  rewrite Z.div_0_l by assumption. reflexivity.
Qed.

(** C10, where the code departs from it: with [nfds] a concrete [n],
    [2 <= n] and [n + 6 < arch.bits], a call that passes both assertions
    loads no word ([long_array_size] is [(n - 1 + 7) // arch.bits = 0]) and
    then indexes the empty [long_array]: [run] raises [IndexError] and
    returns nothing. *)
Theorem select_small_nfds_index_error arch nfds readfds writefds exceptfds timeout
    (st : SimState Memory) :
  concrete_zero writefds = true →
  concrete_zero exceptfds = true →
  symbolic nfds = false →
  2 ≤ concrete_value nfds →
  concrete_value nfds + 6 < bits arch →
  run arch nfds readfds writefds exceptfds timeout st
  = (Raise (IndexError "list index out of range"), st).
Proof.
  intros Hw He Hnfds Hlo Hhi.
  rewrite run_unfold, Hw, He. cbn [andb].
  assert (Hbits : bits arch ≠ 0) by lia.
  unfold select.run_body.
  rewrite (bind_ret _ _ st st (concrete_value nfds))
    by (unfold select.solver_eval; rewrite Hnfds; reflexivity).
  rewrite (bind_ret _ _ st st 0).
  2: { unfold lift_outcome, floordiv.
       rewrite (proj2 (Z.eqb_neq _ _) Hbits).
       rewrite Z.div_small by lia. reflexivity. }
  unfold range. rewrite (seqZ_nil 0 (0 - 0)) by lia. cbn [for_each].
  rewrite (bind_ret _ _ st st []) by reflexivity.
  rewrite (seqZ_cons 0 (concrete_value nfds - 1 - 0)) by lia. cbn [for_each].
  apply bind_raise, bind_raise, mark_bit_empty, Hbits.
Qed.

(** X24: when [run] does return, it returns a 0 bit followed by the 31-bit
    symbol it made last, a 32-bit value whose bit 31 is clear whatever the
    symbol stands for. *)
Lemma select_return_value arch nfds readfds writefds exceptfds timeout
    (st st' : SimState Memory) retval :
  run arch nfds readfds writefds exceptfds timeout st = (Ret retval, st') →
  ∃ uid,
    retval = Concat (BVV 0 1) (BVS "select_ret" uid 31) ∧
    bvs_counter st' = N.succ uid ∧
    length retval = 32 ∧
    ∀ model, Z.testbit (value_under model retval) 31 = false.
Proof.
  rewrite run_unfold.
  destruct (_ && _); [|discriminate]. unfold select.run_body.
  do 5 (rewrite bind_eq;
        match goal with
        | |- (let (_, _) := ?m in _) = _ → _ =>
            destruct m as [[?|?] ?]; [|discriminate]
        end).
  rewrite bind_eq. unfold select.solver_BVS. unfold_monad.
  intros [= <- <-]. eexists. split; [reflexivity|].
  split; [reflexivity|]. split; [reflexivity|].
  intros model. cbn [value_under length].
  apply Z.testbit_false; [lia|].
  match goal with |- context [?x mod 2 ^ 31] =>
    pose proof (Z.mod_pos_bound x (2 ^ 31) ltac:(lia)) end.
  rewrite Z.div_small; [reflexivity|].
  change (0 mod 2 ^ 1) with 0. lia.
Qed.

End Procedure.

(** A call with a non-null [writefds] fails its first assertion with the
    access log of the memory still empty. *)
Example select_writefds_rejected :
  select.run (list access) logged_load logged_store zero_solution sample_simplified amd64
    (BVV 3 64) (BVV 0x7ffe0000 64) (BVV 0x7ffe0100 64) (BVV 0 64) (BVV 0 64)
    fresh_state
  = (Raise (AssertionError EmptyString), {| memory := []; bvs_counter := 0 |}).
Proof. reflexivity. Qed.

(** So does one with a symbolic [exceptfds]. *)
Example select_symbolic_exceptfds_rejected :
  select.run (list access) logged_load logged_store zero_solution sample_simplified amd64
    (BVV 3 64) (BVV 0x7ffe0000 64) (BVV 0 64) (BVS "exceptfds" 0 64) (BVV 0 64)
    {| memory := []; bvs_counter := 1 |}
  = (Raise (AssertionError EmptyString), {| memory := []; bvs_counter := 1 |}).
Proof. reflexivity. Qed.

(** [select(1, ...)] and [select(58, ...)] return; the latter after one
    load and one store. *)
Example select_one_fd :
  sample_run 1
  = (Ret (Concat (BVV 0 1) (BVS "select_ret" 0 31)),
     {| memory := []; bvs_counter := 1 |}).
Proof. reflexivity. Qed.

Example select_58_fds :
  sample_run 58
  = (Ret (Concat (BVV 0 1) (BVS "select_ret" 0 31)),
     {| memory := [Load (Add (BVV 0x7ffe0000 64) (BVV 0 64)) 8;
                   Store (Add (BVV 0x7ffe0000 64) (BVV 0 64)) (BVV 0 64)];
        bvs_counter := 1 |}).
Proof. vm_compute. reflexivity. Qed.

(** The call [select(3, readfds, NULL, NULL, NULL)] on a 64-bit
    architecture. *)
Lemma select_small_nfds_index_error_witness :
  sample_run 3 = (Raise (IndexError "list index out of range"), fresh_state).
Proof.
  apply (select_small_nfds_index_error (list access) logged_load logged_store
           zero_solution sample_simplified amd64 (BVV 3 64) (BVV 0x7ffe0000 64)
           (BVV 0 64) (BVV 0 64) (BVV 0 64) fresh_state);
    [reflexivity | reflexivity | reflexivity | vm_compute; discriminate | reflexivity].
Defined.

End select_proofs.

(** ** More on the condition compiler *)
Module condition_properties.
Import exploration_techniques.
Import exploration_techniques_proofs.

(** The closure of the tuple/set/list branch, case by case. *)
Lemma condition_function_cases self S state w :
  condition_function self S state w
  = if bool_decide (addr state ∈ S) then (Ret (VSet {[ addr state ]}), w)
    else match technique_project w !! self with
         | None =>
             (Raise (AttributeError "'NoneType' object has no attribute 'engines'"), w)
         | Some project =>
             if isinstance_engine (default_engine project) "SimEngineVEX" then
               match block state with
               | Ret b => (Ret (VSet (S ∩ list_to_set (instruction_addrs b))), w)
               | Raise e =>
                   if isinstance_exn e "AngrError" || isinstance_exn e "SimError"
                   then (Ret (VBool false), w)
                   else (Raise e, w)
               end
             else (Ret (VBool false), w)
         end.
Proof.
  unfold condition_function, project_default_engine. unfold_monad.
  destruct (bool_decide _); [reflexivity|].
  destruct (technique_project w !! self) as [project|]; [|reflexivity].
  destruct (isinstance_engine _ _); cbn; [|reflexivity].
  destruct (block state) as [b|e]; [reflexivity|].
  unfold caught_by. cbn. rewrite orb_false_r. reflexivity.
Qed.

(** [run_matcher] on a tuple, set or list is the closure over its set. *)
Lemma run_matcher_sequence self condition dflt S state w :
  isinstance_sequence condition = Some S →
  run_matcher self condition dflt state w = condition_function self S state w.
Proof.
  intros Hseq. unfold run_matcher.
  rewrite (compile_sequence _ _ _ S) by assumption. reflexivity.
Qed.

(** X1: the static address set is a sound fast path.  Whenever the compiler
    returns a set [S] beside the predicate, a state at an address of [S]
    makes the predicate return exactly [{state.addr}], a truthy value, and
    this needs neither a project on the technique nor a block that can be
    lifted. *)
Theorem static_addrs_match self condition dflt predicate S state w :
  _condition_to_lambda self condition dflt = Ret (predicate, VSet S) →
  addr state ∈ S →
  call predicate state w = (Ret (VSet {[ addr state ]}), w) ∧
  truthy (VSet {[ addr state ]}) = true.
Proof.
  intros Hcompile Hin. split.
  - rewrite compile_unfold in Hcompile.
    destruct condition; try discriminate; injection Hcompile as <- <-;
      first [ by apply condition_function_at | set_solver ].
  - cbn. apply negb_true_iff, bool_decide_eq_false. set_solver.
Qed.

Lemma static_addrs_match_witness :
  call (VFunction (condition_function 3 {[ 0x500000; 0x500010 ]}))
    keyerror_state sample_world
  = (Ret (VSet {[ 0x500000 ]}), sample_world) ∧
  truthy (VSet {[ 0x500000 ]}) = true.
Proof.
  apply (static_addrs_match 3 (VSet {[ 0x500000; 0x500010 ]}) default_False
           _ {[ 0x500000; 0x500010 ]} keyerror_state sample_world);
    [reflexivity|].
  apply (bool_decide_unpack _); vm_compute; exact I.
Defined.

(** X2: a predicate compiled from a tuple, set or list answers only with
    addresses of the condition: what it returns is [False] or a set
    contained in [set(condition)], and it leaves the world as it was. *)
Theorem matcher_result_within_condition self condition dflt S state w v w' :
  isinstance_sequence condition = Some S →
  run_matcher self condition dflt state w = (Ret v, w') →
  w' = w ∧ (v = VBool false ∨ ∃ T : gset Z, v = VSet T ∧ T ⊆ S).
Proof.
  intros Hseq. rewrite (run_matcher_sequence _ _ _ S) by assumption.
  rewrite condition_function_cases.
  destruct (bool_decide (addr state ∈ S)) eqn:Hin.
  - apply bool_decide_eq_true in Hin. intros [= <- <-].
    split; [reflexivity|]. right. eexists. split; [reflexivity|]. set_solver.
  - destruct (technique_project w !! self) as [project|]; [|discriminate].
    destruct (isinstance_engine _ _).
    + destruct (block state) as [b|e].
      * intros [= <- <-]. split; [reflexivity|]. right.
        eexists. split; [reflexivity|]. set_solver.
      * destruct (_ || _); [|discriminate]. intros [= <- <-]. by split; [|left].
    + intros [= <- <-]. by split; [|left].
Qed.

Lemma matcher_result_within_condition_witness :
  sample_world = sample_world ∧
  (VSet ({[ 0x400004; 0x400100 ]} ∩ list_to_set [0x400000; 0x400004; 0x400009])
   = VBool false ∨
   ∃ T : gset Z,
     VSet ({[ 0x400004; 0x400100 ]} ∩ list_to_set [0x400000; 0x400004; 0x400009])
     = VSet T ∧ T ⊆ {[ 0x400004; 0x400100 ]}).
Proof.
  apply (matcher_result_within_condition 1 (VSet {[ 0x400004; 0x400100 ]})
           default_False _ sample_state sample_world);
    [reflexivity|]. vm_compute. reflexivity.
Defined.

(** X3: when a predicate compiled from a tuple, set or list returns, its
    result is truthy exactly when the state is at an address of the
    condition, or the technique's project lifts with a VEX engine and the
    state's block holds an instruction at an address of the condition. *)
Theorem matcher_truthy_iff self condition dflt S state w v w' :
  isinstance_sequence condition = Some S →
  run_matcher self condition dflt state w = (Ret v, w') →
  truthy v = true ↔
  addr state ∈ S ∨
  ∃ project b a,
    technique_project w !! self = Some project ∧
    isinstance_engine (default_engine project) "SimEngineVEX" = true ∧
    block state = Ret b ∧ a ∈ S ∧ a ∈ instruction_addrs b.
Proof.
  intros Hseq. rewrite (run_matcher_sequence _ _ _ S) by assumption.
  rewrite condition_function_cases.
  destruct (bool_decide (addr state ∈ S)) eqn:Hin.
  { apply bool_decide_eq_true in Hin. intros [= <- <-]. split; [by left|].
    intros _. cbn. apply negb_true_iff, bool_decide_eq_false. set_solver. }
  apply bool_decide_eq_false in Hin.
  destruct (technique_project w !! self) as [project|]; [|discriminate].
  destruct (isinstance_engine _ _) eqn:Hvex.
  - destruct (block state) as [b|e].
    + intros [= <- <-]. cbn. rewrite negb_true_iff, bool_decide_eq_false. split.
      * intros Hne. right.
        destruct (set_choose_L (S ∩ list_to_set (instruction_addrs b)) Hne)
          as [a Ha].
        exists project, b, a. set_solver.
      * intros [?|(project' & b' & a & [= <-] & _ & [= <-] & HaS & Hab)];
          [done|]. set_solver.
    + destruct (_ || _); [|discriminate]. intros [= <- <-]. cbn. split; [done|].
      intros [?|(? & ? & ? & _ & _ & ? & _)]; done.
  - intros [= <- <-]. cbn. split; [done|].
    intros [?|(project' & ? & ? & [= <-] & Hvex' & _)]; [done|congruence].
Qed.

Lemma matcher_truthy_iff_witness :
  truthy (VSet ({[ 0x400004; 0x400100 ]}
                ∩ list_to_set [0x400000; 0x400004; 0x400009])) = true ↔
  addr sample_state ∈ ({[ 0x400004; 0x400100 ]} : gset Z) ∨
  ∃ project b a,
    technique_project sample_world !! 1%N = Some project ∧
    isinstance_engine (default_engine project) "SimEngineVEX" = true ∧
    block sample_state = Ret b ∧
    a ∈ ({[ 0x400004; 0x400100 ]} : gset Z) ∧ a ∈ instruction_addrs b.
Proof.
  apply (matcher_truthy_iff 1 (VSet {[ 0x400004; 0x400100 ]})
           default_False _ sample_state sample_world _ sample_world);
    [reflexivity|]. vm_compute. reflexivity.
Defined.

(** X4: when the technique's project has a default engine that is not a
    VEX engine, a state off the condition's addresses gets [False] and its
    block is not fetched: the answer is the same whatever [state.block()]
    would return or raise. *)
Theorem matcher_without_vex_is_false self condition dflt S state w project :
  isinstance_sequence condition = Some S →
  addr state ∉ S →
  technique_project w !! self = Some project →
  isinstance_engine (default_engine project) "SimEngineVEX" = false →
  ∀ blk,
    run_matcher self condition dflt {| addr := addr state; block := blk |} w
    = (Ret (VBool false), w).
Proof.
  intros Hseq Hnotin Hproject Hvex blk.
  rewrite (run_matcher_sequence _ _ _ S) by assumption.
  rewrite condition_function_cases. cbn [addr block].
  rewrite bool_decide_eq_false_2 by assumption.
  rewrite Hproject, Hvex. reflexivity.
Qed.

Lemma matcher_without_vex_is_false_witness :
  run_matcher 2 (VList [0x400004]) default_False
    {| addr := 0x500000; block := Raise (KeyError "4096") |} sample_world
  = (Ret (VBool false), sample_world).
Proof.
  refine (matcher_without_vex_is_false 2 (VList [0x400004]) default_False
            (list_to_set [0x400004]) keyerror_state sample_world
            {| default_engine := hook_engine |} _ _ _ _
            (Raise (KeyError "4096")));
    [reflexivity | | reflexivity | reflexivity].
  apply (bool_decide_unpack _); vm_compute; exact I.
Defined.

(** X5: on a technique whose [project] is still [None], a state off the
    condition's addresses makes the predicate raise [AttributeError]: the
    engine test reads [self.project.engines] outside the [try]. *)
Theorem matcher_without_project_raises self condition dflt S state w :
  isinstance_sequence condition = Some S →
  addr state ∉ S →
  technique_project w !! self = None →
  run_matcher self condition dflt state w
  = (Raise (AttributeError "'NoneType' object has no attribute 'engines'"), w).
Proof.
  intros Hseq Hnotin Hproject.
  rewrite (run_matcher_sequence _ _ _ S) by assumption.
  rewrite condition_function_cases.
  rewrite bool_decide_eq_false_2 by assumption.
  rewrite Hproject. reflexivity.
Qed.

Lemma matcher_without_project_raises_witness :
  run_matcher 3 (VTuple [0x400004]) default_False sample_state sample_world
  = (Raise (AttributeError "'NoneType' object has no attribute 'engines'"),
     sample_world).
Proof.
  apply (matcher_without_project_raises 3 (VTuple [0x400004]) default_False
           (list_to_set [0x400004]) sample_state sample_world);
    [reflexivity | | reflexivity].
  apply (bool_decide_unpack _); vm_compute; exact I.
Defined.

(** X6: a predicate compiled from a tuple, set or list raises in two ways
    only, both at a state off the condition's addresses: [AttributeError]
    when the technique has no project, or the exception that fetching the
    block raised under a VEX engine, and then that exception is neither an
    [AngrError] nor a [SimError].  In both the world is left as it was. *)
Theorem matcher_raises_only self condition dflt S state w e w' :
  isinstance_sequence condition = Some S →
  run_matcher self condition dflt state w = (Raise e, w') →
  w' = w ∧ (addr state ∉ S) ∧
  ((technique_project w !! self = None ∧
    e = AttributeError "'NoneType' object has no attribute 'engines'") ∨
   (∃ project,
      technique_project w !! self = Some project ∧
      isinstance_engine (default_engine project) "SimEngineVEX" = true ∧
      block state = Raise e ∧
      isinstance_exn e "AngrError" = false ∧
      isinstance_exn e "SimError" = false)).
Proof.
  intros Hseq. rewrite (run_matcher_sequence _ _ _ S) by assumption.
  rewrite condition_function_cases.
  destruct (bool_decide (addr state ∈ S)) eqn:Hin; [discriminate|].
  apply bool_decide_eq_false in Hin.
  destruct (technique_project w !! self) as [project|].
  - destruct (isinstance_engine _ _) eqn:Hvex; [|discriminate].
    destruct (block state) as [b|e0]; [discriminate|].
    destruct (_ || _) eqn:Hcaught; [discriminate|].
    apply orb_false_elim in Hcaught as [Hangr Hsim].
    intros [= <- <-]. split; [reflexivity|]. split; [assumption|].
    right. by exists project.
  - intros [= <- <-]. split; [reflexivity|]. split; [assumption|]. by left.
Qed.

Lemma matcher_raises_only_witness :
  sample_world = sample_world ∧
  (addr keyerror_state ∉ ({[ 0x400004 ]} : gset Z)) ∧
  ((technique_project sample_world !! 1%N = None ∧
    KeyError "4096" = AttributeError "'NoneType' object has no attribute 'engines'") ∨
   (∃ project,
      technique_project sample_world !! 1%N = Some project ∧
      isinstance_engine (default_engine project) "SimEngineVEX" = true ∧
      block keyerror_state = Raise (KeyError "4096") ∧
      isinstance_exn (KeyError "4096") "AngrError" = false ∧
      isinstance_exn (KeyError "4096") "SimError" = false)).
Proof.
  apply (matcher_raises_only 1 (VSet {[ 0x400004 ]}) default_False _
           keyerror_state sample_world);
    [reflexivity|]. vm_compute. reflexivity.
Defined.

(** X7: only the set of addresses of a sequence matters.  A tuple and a
    list with the same elements, in any order and with any repetitions,
    compile to the same predicate and static address set, the ones of the
    set of these elements. *)
Theorem sequence_order_irrelevant self (l l' : list Z) dflt dflt' dflt'' :
  (∀ x, x ∈ l ↔ x ∈ l') →
  _condition_to_lambda self (VTuple l) dflt
  = _condition_to_lambda self (VList l') dflt' ∧
  _condition_to_lambda self (VList l') dflt'
  = _condition_to_lambda self (VSet (list_to_set l)) dflt''.
Proof.
  intros Hsame.
  assert (Hset : (list_to_set l : gset Z) = list_to_set l').
  { apply set_eq. intros x. rewrite !elem_of_list_to_set. apply Hsame. }
  rewrite !compile_unfold, Hset. split; reflexivity.
Qed.

Lemma sequence_order_irrelevant_witness :
  _condition_to_lambda 1 (VTuple [0x400100; 0x400004; 0x400100]) VNone
  = _condition_to_lambda 1 (VList [0x400004; 0x400100]) default_False ∧
  _condition_to_lambda 1 (VList [0x400004; 0x400100]) default_False
  = _condition_to_lambda 1
      (VSet (list_to_set [0x400100; 0x400004; 0x400100])) default_False.
Proof.
  apply (sequence_order_irrelevant 1 [0x400100; 0x400004; 0x400100]
           [0x400004; 0x400100]).
  intros x. rewrite !elem_of_cons, !elem_of_nil. tauto.
Defined.

(** X8: a boolean condition is an address, not a constant answer: [True]
    compiles as the integer 1 and [False] as the integer 0, with static
    address set [{1}] or [{0}], and the predicate matches a state at that
    address. *)
Theorem bool_condition_is_address self (b : bool) dflt dflt' :
  _condition_to_lambda self (VBool b) dflt
  = _condition_to_lambda self (VInt (Z.b2z b)) dflt' ∧
  ∃ predicate,
    _condition_to_lambda self (VBool b) dflt
    = Ret (predicate, VSet {[ Z.b2z b ]}) ∧
    ∀ blk w,
      call predicate {| addr := Z.b2z b; block := blk |} w
      = (Ret (VSet {[ Z.b2z b ]}), w).
Proof.
  rewrite !compile_unfold. split; [reflexivity|].
  eexists. split; [reflexivity|]. intros blk w.
  apply condition_function_at. cbn. set_solver.
Qed.

(** X9: the parameter [default] is used for the condition [None] only:
    every other condition compiles to the same result whatever default the
    caller passes. *)
Theorem default_only_for_none self condition dflt dflt' :
  condition ≠ VNone →
  _condition_to_lambda self condition dflt
  = _condition_to_lambda self condition dflt'.
Proof.
  intros Hnone. rewrite !compile_unfold. destruct condition; congruence.
Qed.

Lemma default_only_for_none_witness :
  _condition_to_lambda 1 (VInt 0x400004) (VBool true)
  = _condition_to_lambda 1 (VInt 0x400004) default_False.
Proof.
  apply (default_only_for_none 1 (VInt 0x400004) (VBool true) default_False).
  discriminate.
Defined.

End condition_properties.

(** ** More on the compatibility layer *)
Module metaclass_properties.
Import exploration_techniques.
Import exploration_techniques_proofs.
Import ExplorationTechniqueMeta.

(** [inspectable] and [current_interface] look at one entry only. *)
Lemma inspectable_lookup n attrs attrs' key :
  attrs' !! key = attrs !! key →
  inspectable n attrs' key = inspectable n attrs key.
Proof. unfold inspectable. by intros ->. Qed.

Lemma current_interface_lookup attrs attrs' key :
  attrs' !! key = attrs !! key →
  current_interface attrs' key = current_interface attrs key.
Proof. unfold current_interface. by intros ->. Qed.

(** When one adaptation raises. *)
Lemma adapt_step_raises attrs :
  is_raise (adapt "step" no_defaults _step_factory attrs)
  = negb (inspectable 0 attrs "step").
Proof.
  unfold adapt, getargspec, inspectable, no_defaults.
  destruct (attrs !! "step") as [[f|v]|]; [|reflexivity..].
  destruct (argspec_kwonly_or_annotations f); [reflexivity|].
  rewrite bool_decide_eq_true_2 by lia.
  by destruct (argspec_defaults f) as [[|]|].
Qed.

Lemma adapt_simgr_raises key factory attrs :
  is_raise (adapt key args_1_is_not_simgr factory attrs)
  = negb (inspectable 2 attrs key).
Proof.
  unfold adapt, getargspec, inspectable, args_1_is_not_simgr.
  destruct (attrs !! key) as [[f|v]|]; [|reflexivity..].
  destruct (argspec_kwonly_or_annotations f); [reflexivity|].
  destruct (argspec_args f) as [|self [|name args]]; cbn; [done..|].
  by destruct (negb _).
Qed.

(** An entry of the current interface is left as it is. *)
Lemma adapt_step_current attrs :
  current_interface attrs "step" = true →
  adapt "step" no_defaults _step_factory attrs = Ret attrs.
Proof.
  unfold adapt, getargspec, current_interface, no_defaults.
  destruct (attrs !! "step") as [[f|v]|]; [|done..]. cbn.
  destruct (argspec_kwonly_or_annotations f); [done|].
  by destruct (argspec_defaults f) as [[|]|].
Qed.

Lemma adapt_simgr_current key factory attrs :
  key ≠ "step" →
  current_interface attrs key = true →
  adapt key args_1_is_not_simgr factory attrs = Ret attrs.
Proof.
  intros Hkey. unfold adapt, getargspec, current_interface, args_1_is_not_simgr.
  destruct (attrs !! key) as [[f|v]|]; [|done..].
  destruct (argspec_kwonly_or_annotations f); [done|].
  rewrite bool_decide_eq_false_2 by assumption. cbn [negb andb].
  destruct (argspec_args f !! 1%nat) as [name|]; [|done].
  intros Hname. by rewrite Hname.
Qed.

(** After its adaptation, an entry is of the current interface. *)
Lemma adapt_step_makes_current attrs attrs' :
  adapt "step" no_defaults _step_factory attrs = Ret attrs' →
  current_interface attrs' "step" = true.
Proof.
  unfold adapt, getargspec, current_interface, no_defaults.
  destruct (attrs !! "step") as [[f|v]|] eqn:Hstep; [|done|].
  - destruct (argspec_kwonly_or_annotations f) eqn:Hkwonly; [done|].
    destruct (argspec_defaults f) as [[|]|] eqn:Hdefaults; intros [= <-];
      rewrite ?lookup_insert_eq, ?Hstep; cbn; by rewrite ?Hkwonly, ?Hdefaults.
  - intros [= <-]. by rewrite Hstep.
Qed.

Lemma adapt_simgr_makes_current key factory attrs attrs' :
  key ≠ "step" →
  (∀ f, argspec_args (factory f) !! 1%nat = Some "simgr") →
  (∀ f, argspec_kwonly_or_annotations (factory f) = false) →
  adapt key args_1_is_not_simgr factory attrs = Ret attrs' →
  current_interface attrs' key = true.
Proof.
  intros Hkey Hfactory Hplain.
  unfold adapt, getargspec, current_interface, args_1_is_not_simgr.
  destruct (attrs !! key) as [[f|v]|] eqn:Hlookup; [|done|].
  - destruct (argspec_kwonly_or_annotations f) eqn:Hkwonly; [done|].
    destruct (argspec_args f !! 1%nat) as [name|] eqn:Hname; [|done].
    destruct (bool_decide (name = "simgr")) eqn:Hsimgr; cbn; intros [= <-].
    + rewrite Hlookup, Hkwonly, bool_decide_eq_false_2, Hname by assumption.
      exact Hsimgr.
    + rewrite lookup_insert_eq, Hplain, bool_decide_eq_false_2, Hfactory
        by assumption.
      by apply bool_decide_eq_true.
  - intros [= <-]. by rewrite Hlookup.
Qed.

(** [__new__] on a class that is not the exempted one, step by step. *)
Lemma new_unfold name bases attrs attrs1 attrs2 attrs3 :
  name ≠ "ExplorationTechniqueCompat" →
  adapt "step" no_defaults _step_factory attrs = Ret attrs1 →
  adapt "filter" args_1_is_not_simgr _filter_factory attrs1 = Ret attrs2 →
  adapt "step_state" args_1_is_not_simgr _step_state_factory attrs2 = Ret attrs3 →
  __new__ name bases attrs
  = Ret {| class_name_of := name; class_bases := bases; class_attrs := attrs3 |}.
Proof.
  intros Hname H1 H2 H3. unfold __new__.
  rewrite bool_decide_eq_true_2 by assumption. by rewrite H1, H2, H3.
Qed.

(** A class that [__new__] made went through the three adaptations, or
    is the exempted one with its body untouched. *)
Lemma new_inv name bases attrs cls :
  __new__ name bases attrs = Ret cls →
  class_name_of cls = name ∧ class_bases cls = bases ∧
  ((name = "ExplorationTechniqueCompat" ∧ class_attrs cls = attrs) ∨
   (name ≠ "ExplorationTechniqueCompat" ∧
    ∃ attrs1 attrs2,
      adapt "step" no_defaults _step_factory attrs = Ret attrs1 ∧
      adapt "filter" args_1_is_not_simgr _filter_factory attrs1 = Ret attrs2 ∧
      adapt "step_state" args_1_is_not_simgr _step_state_factory attrs2
      = Ret (class_attrs cls))).
Proof.
  unfold __new__. destruct (bool_decide _) eqn:Hname.
  - apply bool_decide_eq_true in Hname.
    destruct (adapt "step" _ _ attrs) as [attrs1|] eqn:H1; [|discriminate].
    destruct (adapt "filter" _ _ attrs1) as [attrs2|] eqn:H2; [|discriminate].
    destruct (adapt "step_state" _ _ attrs2) as [attrs3|] eqn:H3; [|discriminate].
    intros [= <-]. cbn. do 2 (split; [reflexivity|]). right.
    split; [assumption|]. by exists attrs1, attrs2.
  - apply bool_decide_eq_false in Hname. intros [= <-]. cbn.
    do 2 (split; [reflexivity|]). left. split; [|reflexivity].
    by destruct (decide (name = "ExplorationTechniqueCompat")).
Qed.

(** X11: when [__new__] is called for a class other than
    [ExplorationTechniqueCompat] whose [step] can be inspected (no
    keyword-only parameter, no annotation) and has no parameter with a
    default, and whose [filter] and [step_state] can be inspected and have
    two parameters or more, it stores [_step_factory(step)] under [step].
    The wrapper reports a default for [stash], and called with or without a
    stash it calls the old [step] with [(self, simgr, stash, **kwargs)],
    where a missing stash is ['active']; it returns or raises what the old
    [step] does. *)
Theorem legacy_step_wrapped name bases attrs func :
  name ≠ "ExplorationTechniqueCompat" →
  attrs !! "step" = Some (AttrFunction func) →
  argspec_kwonly_or_annotations func = false →
  no_defaults func = Ret true →
  inspectable 2 attrs "filter" = true →
  inspectable 2 attrs "step_state" = true →
  ∃ cls,
    __new__ name bases attrs = Ret cls ∧
    class_attrs cls !! "step" = Some (AttrFunction (_step_factory func)) ∧
    no_defaults (_step_factory func) = Ret false ∧
    ∀ self simgr stash kwargs w,
      func_call (_step_factory func) (ArgsStep self simgr stash kwargs) w
      = func_call func
          (ArgsStep self simgr (Some (default (VStr "active") stash)) kwargs) w.
Proof.
  intros Hname Hstep Hplain Hdefaults Hfilter Hstep_state.
  set (attrs1 := <["step" := AttrFunction (_step_factory func)]> attrs).
  assert (H1 : adapt "step" no_defaults _step_factory attrs = Ret attrs1).
  { unfold adapt, getargspec. by rewrite Hstep, Hplain, Hdefaults. }
  destruct (adapt_simgr_returns "filter" _filter_factory attrs1) as [attrs2 H2].
  { rewrite (inspectable_lookup _ attrs); [assumption|].
    by apply lookup_insert_ne. }
  destruct (adapt_simgr_returns "step_state" _step_state_factory attrs2)
    as [attrs3 H3].
  { rewrite (inspectable_lookup _ attrs); [assumption|].
    rewrite (adapt_lookup_ne "filter" "step_state" _ _ _ _ ltac:(discriminate) H2).
    by apply lookup_insert_ne. }
  exists {| class_name_of := name; class_bases := bases; class_attrs := attrs3 |}.
  split; [by apply (new_unfold _ _ _ attrs1 attrs2)|].
  split; [|split; [reflexivity|reflexivity]]. cbn.
  rewrite (adapt_lookup_ne "step_state" "step" _ _ _ _ ltac:(discriminate) H3).
  rewrite (adapt_lookup_ne "filter" "step" _ _ _ _ ltac:(discriminate) H2).
  apply lookup_insert_eq.
Qed.

Lemma legacy_step_wrapped_witness :
  ∃ cls,
    __new__ "Legacy" ["ExplorationTechnique"] legacy_hooks = Ret cls ∧
    class_attrs cls !! "step" = Some (AttrFunction (_step_factory legacy_step)) ∧
    no_defaults (_step_factory legacy_step) = Ret false ∧
    ∀ self simgr stash kwargs w,
      func_call (_step_factory legacy_step) (ArgsStep self simgr stash kwargs) w
      = func_call legacy_step
          (ArgsStep self simgr (Some (default (VStr "active") stash)) kwargs) w.
Proof.
  apply (legacy_step_wrapped "Legacy" ["ExplorationTechnique"] legacy_hooks
           legacy_step);
    [discriminate | reflexivity | reflexivity | reflexivity | reflexivity
    | reflexivity].
Defined.

(** X12: when [__new__] is called for a class other than
    [ExplorationTechniqueCompat] whose [step_state] can be inspected (no
    keyword-only parameter, no annotation) and has a second parameter that
    is not [simgr], whose [step] can be inspected and whose [filter] can be
    inspected and has two parameters or more, it stores
    [_step_state_factory(step_state)] under [step_state].  The
    wrapper calls the old function with [(self, state, **kwargs)]; when that
    returns [None] it returns what
    [simgr.step_state(state, successor_func=successor_func, **kwargs)]
    returns, from the world the old function left; otherwise it returns or
    raises what the old function did, and the manager is not called. *)
Theorem legacy_step_state_wrapped name bases attrs func param :
  name ≠ "ExplorationTechniqueCompat" →
  attrs !! "step_state" = Some (AttrFunction func) →
  argspec_kwonly_or_annotations func = false →
  argspec_args func !! 1%nat = Some param →
  param ≠ "simgr" →
  inspectable 0 attrs "step" = true →
  inspectable 2 attrs "filter" = true →
  ∃ cls,
    __new__ name bases attrs = Ret cls ∧
    class_attrs cls !! "step_state"
    = Some (AttrFunction (_step_state_factory func)) ∧
    ∀ self simgr state successor_func kwargs w,
      func_call (_step_state_factory func)
        (ArgsStepState self simgr state successor_func kwargs) w
      = match func_call func (ArgsLegacyStepState self state kwargs) w with
        | (Ret RNone, w') =>
            simgr_step_state simgr state (default VNone successor_func) kwargs w'
        | (Ret stashes, w') => (Ret stashes, w')
        | (Raise e, w') => (Raise e, w')
        end.
Proof.
  intros Hname Hstep_state Hplain Hparam Hsimgr Hstep Hfilter.
  destruct (adapt_step_returns attrs Hstep) as [attrs1 H1].
  destruct (adapt_simgr_returns "filter" _filter_factory attrs1) as [attrs2 H2].
  { rewrite (inspectable_lookup _ attrs); [assumption|].
    apply (adapt_lookup_ne "step" "filter" _ _ _ _ ltac:(discriminate) H1). }
  assert (Hlookup : attrs2 !! "step_state" = Some (AttrFunction func)).
  { rewrite (adapt_lookup_ne "filter" "step_state" _ _ _ _ ltac:(discriminate) H2).
    rewrite (adapt_lookup_ne "step" "step_state" _ _ _ _ ltac:(discriminate) H1).
    exact Hstep_state. }
  exists {| class_name_of := name; class_bases := bases;
            class_attrs := <["step_state" := AttrFunction (_step_state_factory func)]>
                             attrs2 |}.
  split; [|split].
  - apply (new_unfold _ _ _ attrs1 attrs2); try assumption.
    unfold adapt, getargspec, args_1_is_not_simgr.
    rewrite Hlookup, Hplain, Hparam.
    by rewrite bool_decide_eq_false_2.
  - apply lookup_insert_eq.
  - intros self simgr state successor_func kwargs w. cbn. unfold_monad.
    destruct (func_call func (ArgsLegacyStepState self state kwargs) w)
      as [[result|e] w']; [|reflexivity].
    destruct result; cbn; try reflexivity.
    destruct (simgr_step_state simgr state (default VNone successor_func) kwargs w')
      as [[?|?] ?]; reflexivity.
Qed.

Lemma legacy_step_state_wrapped_witness :
  ∃ cls,
    __new__ "Legacy" ["ExplorationTechnique"] legacy_hooks = Ret cls ∧
    class_attrs cls !! "step_state"
    = Some (AttrFunction (_step_state_factory legacy_step_state)) ∧
    ∀ self simgr state successor_func kwargs w,
      func_call (_step_state_factory legacy_step_state)
        (ArgsStepState self simgr state successor_func kwargs) w
      = match func_call legacy_step_state (ArgsLegacyStepState self state kwargs) w with
        | (Ret RNone, w') =>
            simgr_step_state simgr state (default VNone successor_func) kwargs w'
        | (Ret stashes, w') => (Ret stashes, w')
        | (Raise e, w') => (Raise e, w')
        end.
Proof.
  apply (legacy_step_state_wrapped "Legacy" ["ExplorationTechnique"] legacy_hooks
           legacy_step_state "state");
    [discriminate | reflexivity | reflexivity | reflexivity | discriminate
    | reflexivity | reflexivity].
Defined.

(** Hooks of the current interface make [__new__] keep the body. *)
Lemma new_current name bases attrs :
  current_interface attrs "step" = true →
  current_interface attrs "filter" = true →
  current_interface attrs "step_state" = true →
  __new__ name bases attrs
  = Ret {| class_name_of := name; class_bases := bases; class_attrs := attrs |}.
Proof.
  intros Hstep Hfilter Hstep_state. unfold __new__.
  rewrite adapt_step_current by assumption.
  rewrite (adapt_simgr_current "filter") by done.
  rewrite (adapt_simgr_current "step_state") by done.
  by destruct (bool_decide _).
Qed.

(** X13: [__new__] stores a class body as written, wrapping nothing, when
    each of [step], [filter] and [step_state] is missing or can be inspected
    (no keyword-only parameter, no annotation) and is of the current
    interface: a [step] with a default, a [filter] and a [step_state] with
    [simgr] as second parameter.  The default hooks of
    [ExplorationTechnique] are such a body. *)
Theorem current_hooks_unchanged name bases attrs :
  current_interface attrs "step" = true →
  current_interface attrs "filter" = true →
  current_interface attrs "step_state" = true →
  __new__ name bases attrs
  = Ret {| class_name_of := name; class_bases := bases; class_attrs := attrs |}.
Proof. apply new_current. Qed.

Lemma current_hooks_unchanged_witness :
  __new__ "ExplorationTechnique" [] ExplorationTechnique.hooks
  = Ret {| class_name_of := "ExplorationTechnique"; class_bases := [];
           class_attrs := ExplorationTechnique.hooks |}.
Proof.
  apply (current_hooks_unchanged "ExplorationTechnique" [] ExplorationTechnique.hooks);
    reflexivity.
Defined.

(** X14: adaptation happens once.  The body of a class that [__new__]
    returned for a name other than [ExplorationTechniqueCompat] is of the
    current interface: running [__new__] on that body again, under any name,
    returns it unchanged, so no wrapper is wrapped a second time. *)
Theorem new_idempotent name bases attrs cls name' bases' :
  name ≠ "ExplorationTechniqueCompat" →
  __new__ name bases attrs = Ret cls →
  __new__ name' bases' (class_attrs cls)
  = Ret {| class_name_of := name'; class_bases := bases';
           class_attrs := class_attrs cls |}.
Proof.
  intros Hname Hnew.
  destruct (new_inv _ _ _ _ Hnew) as (_ & _ & [[? _]|(_ & attrs1 & attrs2 & H1 & H2 & H3)]);
    [done|].
  apply new_current.
  - rewrite (current_interface_lookup attrs1).
    + by apply (adapt_step_makes_current attrs).
    + rewrite (adapt_lookup_ne "step_state" "step" _ _ _ _ ltac:(discriminate) H3).
      apply (adapt_lookup_ne "filter" "step" _ _ _ _ ltac:(discriminate) H2).
  - rewrite (current_interface_lookup attrs2).
    + by apply (adapt_simgr_makes_current "filter" _filter_factory attrs1).
    + apply (adapt_lookup_ne "step_state" "filter" _ _ _ _ ltac:(discriminate) H3).
  - by apply (adapt_simgr_makes_current "step_state" _step_state_factory attrs2).
Qed.

Lemma new_idempotent_witness :
  ∃ cls,
    __new__ "Legacy" ["ExplorationTechnique"] legacy_hooks = Ret cls ∧
    __new__ "Child" ["Legacy"] (class_attrs cls)
    = Ret {| class_name_of := "Child"; class_bases := ["Legacy"];
             class_attrs := class_attrs cls |}.
Proof.
  eexists. split; [reflexivity|].
  apply (new_idempotent "Legacy" ["ExplorationTechnique"] legacy_hooks);
    [discriminate | reflexivity].
Defined.

(** X15: the metaclass touches the three hooks only.  The class it returns
    has the given name and bases, every entry under another key as it was
    written, and the same keys as the body. *)
Theorem new_keeps_other_entries name bases attrs cls :
  __new__ name bases attrs = Ret cls →
  class_name_of cls = name ∧ class_bases cls = bases ∧
  dom (class_attrs cls) = dom attrs ∧
  ∀ key, key ≠ "step" → key ≠ "filter" → key ≠ "step_state" →
         class_attrs cls !! key = attrs !! key.
Proof.
  intros Hnew.
  assert (Hdom : ∀ key test factory attrs0 attrs',
            adapt key test factory attrs0 = Ret attrs' → dom attrs' = dom attrs0).
  { intros key test factory attrs0 attrs'. unfold adapt, getargspec.
    destruct (attrs0 !! key) as [[f|v]|] eqn:Hkey; [|done|by intros [= <-]].
    destruct (argspec_kwonly_or_annotations f); [done|].
    destruct (test f) as [[]|]; [|by intros [= <-]|done].
    intros [= <-]. rewrite dom_insert_L.
    assert (key ∈ dom attrs0) by (apply elem_of_dom; eauto). set_solver. }
  destruct (new_inv _ _ _ _ Hnew)
    as (-> & -> & [[_ ->]|(_ & attrs1 & attrs2 & H1 & H2 & H3)]); [done|].
  do 2 (split; [reflexivity|]). split.
  - by rewrite (Hdom _ _ _ _ _ H3), (Hdom _ _ _ _ _ H2), (Hdom _ _ _ _ _ H1).
  - intros key Hstep Hfilter Hstep_state.
    rewrite (adapt_lookup_ne "step_state" key _ _ _ _ ltac:(done) H3).
    rewrite (adapt_lookup_ne "filter" key _ _ _ _ ltac:(done) H2).
    apply (adapt_lookup_ne "step" key _ _ _ _ ltac:(done) H1).
Qed.

Lemma new_keeps_other_entries_witness :
  ∃ cls,
    __new__ "Legacy" ["ExplorationTechnique"] legacy_hooks = Ret cls ∧
    class_name_of cls = "Legacy" ∧ class_bases cls = ["ExplorationTechnique"] ∧
    dom (class_attrs cls) = dom legacy_hooks ∧
    ∀ key, key ≠ "step" → key ≠ "filter" → key ≠ "step_state" →
           class_attrs cls !! key = legacy_hooks !! key.
Proof.
  eexists. split; [reflexivity|].
  apply (new_keeps_other_entries "Legacy" ["ExplorationTechnique"] legacy_hooks).
  reflexivity.
Defined.

(** X16: [__new__] raises exactly when the class is not
    [ExplorationTechniqueCompat] and one of the entries [step], [filter] and
    [step_state] is there and cannot be inspected: [inspect.getargspec]
    cannot look into it ([TypeError]), or it has a keyword-only parameter or
    an annotation ([ValueError]), or it is a [filter] or [step_state] with
    fewer than two parameters ([IndexError]). *)
Theorem new_raises_iff name bases attrs :
  is_raise (__new__ name bases attrs)
  = bool_decide (name ≠ "ExplorationTechniqueCompat")
    && negb (inspectable 0 attrs "step" && inspectable 2 attrs "filter"
             && inspectable 2 attrs "step_state").
Proof.
  unfold __new__. destruct (bool_decide _); [|reflexivity]. cbn [andb].
  pose proof (adapt_step_raises attrs) as Hstep.
  destruct (adapt "step" _ _ attrs) as [attrs1|] eqn:H1; cbn in Hstep;
    [|by destruct (inspectable 0 attrs "step")].
  symmetry in Hstep. apply negb_false_iff in Hstep. rewrite Hstep. cbn [andb].
  pose proof (adapt_simgr_raises "filter" _filter_factory attrs1) as Hfilter.
  rewrite (inspectable_lookup _ attrs) in Hfilter
    by apply (adapt_lookup_ne "step" "filter" _ _ _ _ ltac:(discriminate) H1).
  destruct (adapt "filter" _ _ attrs1) as [attrs2|] eqn:H2; cbn in Hfilter;
    [|by destruct (inspectable 2 attrs "filter")].
  symmetry in Hfilter. apply negb_false_iff in Hfilter. rewrite Hfilter. cbn [andb].
  pose proof (adapt_simgr_raises "step_state" _step_state_factory attrs2)
    as Hstep_state.
  rewrite (inspectable_lookup _ attrs) in Hstep_state.
  2: { rewrite (adapt_lookup_ne "filter" "step_state" _ _ _ _ ltac:(discriminate) H2).
       apply (adapt_lookup_ne "step" "step_state" _ _ _ _ ltac:(discriminate) H1). }
  by destruct (adapt "step_state" _ _ attrs2).
Qed.

End metaclass_properties.

(** ** More on [select.run] *)
Module select_properties.
Import select.

(** *** Python lists and loops *)

Lemma list_getitem_lookup {A} (l : list A) (i : Z) x :
  0 ≤ i → l !! Z.to_nat i = Some x → list_getitem l i = Ret x.
Proof.
  intros Hi Hlookup. unfold list_getitem.
  pose proof (lookup_lt_Some _ _ _ Hlookup) as Hlt.
  rewrite (proj2 (Z.ltb_ge i 0)) by lia.
  rewrite (proj2 (Z.ltb_ge i 0)) by lia.
  rewrite (proj2 (Z.leb_gt _ _)) by lia. cbn. by rewrite Hlookup.
Qed.

Lemma list_getitem_beyond {A} (l : list A) (i : Z) :
  Z.of_nat (List.length l) ≤ i →
  list_getitem l i = Raise (IndexError "list index out of range").
Proof.
  intros Hi. unfold list_getitem.
  rewrite (proj2 (Z.ltb_ge i 0)) by lia.
  rewrite (proj2 (Z.ltb_ge i 0)) by lia.
  by rewrite (proj2 (Z.leb_le _ _)) by lia.
Qed.

Lemma list_setitem_lookup {A} (l : list A) (i : Z) x y :
  0 ≤ i → l !! Z.to_nat i = Some y →
  list_setitem l i x = Ret (<[Z.to_nat i := x]> l).
Proof.
  intros Hi Hlookup. unfold list_setitem.
  pose proof (lookup_lt_Some _ _ _ Hlookup) as Hlt.
  rewrite (proj2 (Z.ltb_ge i 0)) by lia.
  rewrite (proj2 (Z.ltb_ge i 0)) by lia.
  by rewrite (proj2 (Z.leb_gt _ _)) by lia.
Qed.

Lemma list_setitem_length {A} (l l' : list A) (i : Z) x :
  list_setitem l i x = Ret l' → List.length l' = List.length l.
Proof.
  unfold list_setitem. destruct (_ || _); [discriminate|].
  intros [= <-]. apply length_insert.
Qed.

Lemma for_each_app {W A S} (l1 l2 : list A) (body : A → S → M W S) acc w :
  for_each (l1 ++ l2) body acc w
  = (for_each l1 body acc ≫= for_each l2 body) w.
Proof.
  revert acc w. induction l1 as [|x l1 IH]; intros acc w; [reflexivity|].
  cbn [for_each app]. rewrite !bind_eq.
  destruct (body x acc w) as [[acc'|e] w']; [|reflexivity].
  rewrite IH. apply bind_eq.
Qed.

(** A loop keeps what every round keeps. *)
Lemma for_each_invariant {W A S} (P : S → Prop) (l : list A)
    (body : A → S → M W S) acc w acc' w' :
  (∀ x a u a' u', P a → body x a u = (Ret a', u') → P a') →
  P acc →
  for_each l body acc w = (Ret acc', w') → P acc'.
Proof.
  intros Hbody. revert acc w. induction l as [|x l IH]; intros acc w Hacc.
  - by intros [= <- <-].
  - cbn [for_each]. rewrite bind_eq.
    destruct (body x acc w) as [[a|e] u] eqn:Hx; [|discriminate].
    apply IH. by apply (Hbody x acc w a u).
Qed.

Lemma bind_is_raise {W A B} (m : M W A) (k : A → M W B) w :
  is_raise (fst (m w)) = true → is_raise (fst ((m ≫= k) w)) = true.
Proof. rewrite bind_eq. by destruct (m w) as [[a|e] w']. Qed.

(** *** Bit-vector expressions *)

Lemma extract_in_range high low e :
  0 ≤ low → low ≤ high → high < length e →
  extract high low e = Ret (Extract high low e).
Proof.
  intros Hlow Hhigh Hlen. unfold extract.
  rewrite (proj2 (Z.ltb_ge high 0)), (proj2 (Z.ltb_ge low 0)) by lia. cbn.
  rewrite (proj2 (Z.ltb_ge high low)) by lia.
  by rewrite (proj2 (Z.leb_gt _ _)) by lia.
Qed.

(** Slices with bounds that do not count from the length, and the slice
    [[start:]] for a bound that does. *)
Lemma getitem_slice_bounds e start stop :
  0 ≤ start → 0 ≤ stop →
  getitem_slice e (Some start) (Some stop) = extract start stop e.
Proof.
  intros Hstart Hstop. unfold getitem_slice. cbn [from_option id].
  by rewrite (proj2 (Z.ltb_ge start 0)), (proj2 (Z.ltb_ge stop 0)) by lia.
Qed.

Lemma getitem_slice_from e start :
  0 ≤ start → getitem_slice e (Some start) None = extract start 0 e.
Proof.
  intros Hstart. unfold getitem_slice. cbn [from_option id].
  by rewrite (proj2 (Z.ltb_ge start 0)), Z.ltb_irrefl by lia.
Qed.

Lemma getitem_slice_from_end e start :
  start < 0 →
  getitem_slice e (Some start) None = extract (length e + start) 0 e.
Proof.
  intros Hstart. unfold getitem_slice. cbn [from_option id].
  by rewrite (proj2 (Z.ltb_lt start 0)), Z.ltb_irrefl by lia.
Qed.

(** Bits of a value put together from a high part, one bit and [k] low
    bits. *)
Lemma testbit_splice (v s k n j : Z) :
  1 ≤ k → k < n → 0 ≤ j < n →
  Z.testbit
    ((((v / 2 ^ (k + 1)) mod 2 ^ (n - 1 - (k + 1) + 1)) * 2 ^ 1 + s mod 2 ^ 1)
     * 2 ^ (k - 1 - 0 + 1) + (v / 2 ^ 0) mod 2 ^ (k - 1 - 0 + 1)) j
  = if j =? k then Z.testbit s 0 else Z.testbit v j.
Proof.
  intros Hk Hn Hj.
  replace (k - 1 - 0 + 1) with k by lia.
  replace (n - 1 - (k + 1) + 1) with (n - k - 1) by lia.
  rewrite Z.pow_0_r, Z.div_1_r.
  set (H := (v / 2 ^ (k + 1)) mod 2 ^ (n - k - 1)).
  set (L := v mod 2 ^ k).
  assert (HL : 0 ≤ L < 2 ^ k) by (apply Z.mod_pos_bound; lia).
  assert (Hs : 0 ≤ s mod 2 ^ 1 < 2 ^ 1) by (apply Z.mod_pos_bound; lia).
  destruct (Z.lt_ge_cases j k) as [Hlow|Hhigh].
  - rewrite (proj2 (Z.eqb_neq j k)) by lia.
    rewrite <- (Z.mod_pow2_bits_low _ k j) by lia.
    rewrite Z.add_comm, Z.mod_add by lia.
    rewrite (Z.mod_small L) by lia.
    apply Z.mod_pow2_bits_low. lia.
  - replace j with (j - k + k) at 1 by lia.
    rewrite <- Z.div_pow2_bits by lia.
    rewrite Z.div_add_l by lia. rewrite (Z.div_small L) by lia.
    rewrite Z.add_0_r.
    destruct (Z.eqb_spec j k) as [->|Hne].
    + rewrite Z.sub_diag.
      rewrite <- (Z.mod_pow2_bits_low _ 1 0) by lia.
      rewrite Z.add_comm, Z.mod_add by lia.
      rewrite Z.mod_mod by lia.
      apply Z.mod_pow2_bits_low. lia.
    + replace (j - k) with (j - k - 1 + 1) by lia.
      rewrite <- Z.div_pow2_bits by lia.
      rewrite Z.div_add_l by lia. rewrite (Z.div_small (s mod 2 ^ 1)) by lia.
      rewrite Z.add_0_r. unfold H.
      rewrite Z.mod_pow2_bits_low by lia.
      rewrite Z.div_pow2_bits by lia. f_equal. lia.
Qed.

(** *** The procedure *)

Section Procedure.

Context (Memory : Type).
Context (memory_load : BV → Z → Endness → Memory → outcome BV * Memory).
Context (memory_store : BV → BV → Endness → Memory → outcome () * Memory).
Context (solver_solution : BV → outcome Z).
Context (simplified : BV → BV).

Local Abbreviation run :=
  (run Memory memory_load memory_store solver_solution simplified).
Local Abbreviation run_body :=
  (run_body Memory memory_load memory_store solver_solution simplified).
Local Abbreviation mark_bit := (mark_bit Memory solver_solution simplified).
Local Abbreviation run_unfold :=
  (select_proofs.run_unfold Memory memory_load memory_store solver_solution
     simplified).

Ltac unfold_monad :=
  unfold mbind, M_bind, mret, M_ret, raise, get_world, lift_outcome in *.

(** X17: with no descriptor to look at ([nfds] concrete and at most 1, on
    an architecture of more than [nfds + 6] bits), a call that passes both
    assertions returns the 0 bit followed by a new 31-bit symbol; it loads
    and stores nothing, and only the counter of symbol names moves on. *)
Theorem select_without_fds arch nfds readfds writefds exceptfds timeout
    (st : SimState Memory) :
  concrete_zero writefds = true →
  concrete_zero exceptfds = true →
  symbolic nfds = false →
  concrete_value nfds ≤ 1 →
  0 < bits arch →
  concrete_value nfds + 6 < bits arch →
  run arch nfds readfds writefds exceptfds timeout st
  = (Ret (Concat (BVV 0 1) (BVS "select_ret" (bvs_counter st) 31)),
     {| memory := memory st; bvs_counter := N.succ (bvs_counter st) |}).
Proof.
  intros Hw He Hnfds Hn Hbits Hsmall.
  rewrite run_unfold, Hw, He. cbn [andb]. unfold select.run_body.
  rewrite (bind_ret _ _ st st (concrete_value nfds))
    by (unfold select.solver_eval; rewrite Hnfds; reflexivity).
  rewrite (bind_ret _ _ st st ((concrete_value nfds - 1 + 7) / bits arch)).
  2: { unfold lift_outcome, floordiv.
       by rewrite (proj2 (Z.eqb_neq (bits arch) 0)) by lia. }
  assert (Hsize : (concrete_value nfds - 1 + 7) / bits arch < 1)
    by (apply Z.div_lt_upper_bound; lia).
  unfold range. rewrite !seqZ_nil by lia. cbn [for_each].
  rewrite (bind_ret _ _ st st []) by reflexivity.
  rewrite (bind_ret _ _ st st []) by reflexivity.
  rewrite (bind_ret _ _ st st ()) by reflexivity.
  reflexivity.
Qed.

(** X18: when [nfds] is symbolic and the solver cannot give it a value,
    a call that passes both assertions raises the solver's exception with
    the state as it was: nothing was loaded or stored before. *)
Theorem select_solver_failure arch nfds readfds writefds exceptfds timeout
    (st : SimState Memory) e :
  concrete_zero writefds = true →
  concrete_zero exceptfds = true →
  symbolic nfds = true →
  solver_solution nfds = Raise e →
  run arch nfds readfds writefds exceptfds timeout st = (Raise e, st).
Proof.
  intros Hw He Hnfds Hsolver.
  rewrite run_unfold, Hw, He. cbn [andb]. unfold select.run_body.
  apply bind_raise. unfold select.solver_eval, lift_outcome.
  by rewrite Hnfds, Hsolver.
Qed.

(** One round of the second loop keeps the number of words. *)
Lemma mark_bit_length arch_bits i long_array (st : SimState Memory)
    long_array' st' :
  mark_bit arch_bits i long_array st = (Ret long_array', st') →
  List.length long_array' = List.length long_array.
Proof.
  unfold select.mark_bit. unfold_monad.
  destruct (floordiv i arch_bits) as [long_pos|]; [|discriminate].
  destruct (modulo i arch_bits) as [bit_offset|]; [|discriminate].
  destruct (list_getitem long_array long_pos) as [long|]; [|discriminate].
  destruct (getitem_bit long bit_offset) as [bit|]; [|discriminate].
  assert (Hhit :
    match getitem_slice long (Some (arch_bits - 1)) (Some (bit_offset + 1)) with
    | Ret a =>
        let (o, w') := solver_BVS Memory "fd_state" 1 st in
        match o with
        | Ret a0 =>
            match getitem_slice long (Some (bit_offset - 1)) None with
            | Ret a1 =>
                (list_setitem long_array long_pos (Concat (Concat a a0) a1), w')
            | Raise e => (Raise e, w')
            end
        | Raise e => (Raise e, w')
        end
    | Raise e => (Raise e, st)
    end = (Ret long_array', st') →
    List.length long_array' = List.length long_array).
  { destruct (getitem_slice long (Some (arch_bits - 1)) (Some (bit_offset + 1)));
      [|discriminate].
    unfold select.solver_BVS.
    destruct (getitem_slice long (Some (bit_offset - 1)) None); [|discriminate].
    intros [= Hset _]. by apply list_setitem_length in Hset. }
  cbv zeta. destruct (symbolic (simplified bit)) eqn:Hsym; [exact Hhit|].
  unfold select.solver_eval. rewrite Hsym. unfold mret, M_ret.
  destruct (concrete_value (simplified bit) =? 1); [exact Hhit|].
  by intros [= <- <-].
Qed.

(** The first loop appends one word per round. *)
Lemma load_loop_length arch readfds (offsets : list Z) long_array
    (st : SimState Memory) long_array' st' :
  for_each offsets
    (λ offset long_array,
       long ← load Memory memory_load (add_int readfds (offset * bytes arch))
                (bytes arch) (memory_endness arch);
       mret (long_array ++ [long]))
    long_array st = (Ret long_array', st') →
  List.length long_array'
  = (List.length long_array + List.length offsets)%nat.
Proof.
  revert long_array st. induction offsets as [|offset offsets IH];
    intros long_array st.
  - intros [= <- <-]. cbn. lia.
  - cbn [for_each]. rewrite bind_eq.
    match goal with
    | |- (let (_, _) := ?m in _) = _ → _ => destruct m as [[a|e] u] eqn:Hround
    end; [|discriminate].
    rewrite bind_eq in Hround.
    destruct (load _ _ _ _ _ st) as [[long|] u']; [|discriminate].
    injection Hround as <- <-.
    intros Hrest%IH. rewrite Hrest, length_app. cbn. lia.
Qed.

(** A round of the second loop for a bit beyond the loaded words. *)
Lemma mark_bit_beyond arch_bits i long_array (st : SimState Memory) :
  0 < arch_bits →
  Z.of_nat (List.length long_array) ≤ i / arch_bits →
  mark_bit arch_bits i long_array st
  = (Raise (IndexError "list index out of range"), st).
Proof.
  intros Hbits Hbeyond. unfold select.mark_bit, floordiv, modulo. unfold_monad.
  rewrite (proj2 (Z.eqb_neq arch_bits 0)) by lia.
  by rewrite list_getitem_beyond.
Qed.

(** X19: [run] can return only if the words it loads cover the bits it
    marks.  For a concrete [nfds] of at least 2 with
    [((nfds - 1 + 7) // arch.bits) * arch.bits < nfds - 1], a call that
    passes both assertions never returns a value: it raises, at the latest
    an [IndexError] when the second loop reaches the first bit behind the
    last loaded word.  On 64 bits this is, for instance, every [nfds] from 2
    to 57 and from 66 to 121. *)
Theorem select_raises_beyond_loaded_words arch nfds readfds writefds exceptfds
    timeout (st : SimState Memory) :
  concrete_zero writefds = true →
  concrete_zero exceptfds = true →
  symbolic nfds = false →
  0 < bits arch →
  2 ≤ concrete_value nfds →
  (concrete_value nfds - 1 + 7) / bits arch * bits arch < concrete_value nfds - 1 →
  is_raise (fst (run arch nfds readfds writefds exceptfds timeout st)) = true.
Proof.
  intros Hw He Hnfds Hbits Hn Hwindow.
  rewrite run_unfold, Hw, He. cbn [andb]. unfold select.run_body.
  set (n := concrete_value nfds) in *.
  set (size := (n - 1 + 7) / bits arch) in *.
  assert (Hsize : 0 ≤ size) by (apply Z.div_pos; lia).
  rewrite (bind_ret _ _ st st n)
    by (unfold select.solver_eval; rewrite Hnfds; reflexivity).
  rewrite (bind_ret _ _ st st size).
  2: { unfold lift_outcome, floordiv.
       by rewrite (proj2 (Z.eqb_neq (bits arch) 0)) by lia. }
  rewrite bind_eq.
  match goal with
  | |- context [for_each (range 0 size) ?body [] st] =>
      destruct (for_each (range 0 size) body [] st)
        as [[long_array|e] st1] eqn:Hload
  end; [|reflexivity].
  apply load_loop_length in Hload.
  unfold range in Hload. rewrite length_seqZ in Hload. cbn in Hload.
  apply bind_is_raise.
  unfold range.
  replace (n - 1 - 0) with (size * bits arch + (n - 1 - size * bits arch)) by lia.
  rewrite seqZ_app by nia.
  rewrite for_each_app, bind_eq.
  destruct (for_each (seqZ 0 (size * bits arch)) (mark_bit (bits arch))
              long_array st1) as [[marked|e] st2] eqn:Hmarked; [|reflexivity].
  assert (Hlength : List.length marked = List.length long_array).
  { apply (for_each_invariant
             (λ a, List.length a = List.length long_array) _ _ _ _ _ _
             (λ x a u a' u' Ha Hround,
                eq_trans (mark_bit_length _ _ _ _ _ _ Hround) Ha)
             eq_refl Hmarked). }
  rewrite seqZ_cons by lia. cbn [for_each].
  apply bind_is_raise. rewrite mark_bit_beyond; [reflexivity|lia|].
  rewrite Z.add_0_l, Z.div_mul by lia. lia.
Qed.

End Procedure.

(** [select(66, ...)] on 64 bits loads one word and needs a second. *)
Lemma select_raises_beyond_loaded_words_witness :
  is_raise (fst (sample_run 66)) = true.
Proof.
  apply (select_raises_beyond_loaded_words (list access) logged_load logged_store
           zero_solution sample_simplified amd64 (BVV 66 64) (BVV 0x7ffe0000 64)
           (BVV 0 64) (BVV 0 64) (BVV 0 64) fresh_state);
    [reflexivity | reflexivity | reflexivity | reflexivity
    | vm_compute; discriminate | reflexivity].
Defined.

Lemma select_without_fds_witness :
  sample_run 1
  = (Ret (Concat (BVV 0 1) (BVS "select_ret" 0 31)),
     {| memory := []; bvs_counter := 1 |}).
Proof.
  apply (select_without_fds (list access) logged_load logged_store
           zero_solution sample_simplified amd64 (BVV 1 64) (BVV 0x7ffe0000 64)
           (BVV 0 64) (BVV 0 64) (BVV 0 64) fresh_state);
    [reflexivity | reflexivity | reflexivity | vm_compute; discriminate
    | reflexivity | reflexivity].
Defined.

Lemma select_solver_failure_witness :
  run (list access) logged_load logged_store
    (λ _, Raise (builtin_error "SimUnsatError" ["SimError"] "unsat"))
    sample_simplified amd64 (BVS "nfds" 0 64) (BVV 0x7ffe0000 64) (BVV 0 64) (BVV 0 64) (BVV 0 64)
    {| memory := []; bvs_counter := 1 |}
  = (Raise (builtin_error "SimUnsatError" ["SimError"] "unsat"),
     {| memory := []; bvs_counter := 1 |}).
Proof.
  apply (select_solver_failure (list access) logged_load logged_store
           (λ _, Raise (builtin_error "SimUnsatError" ["SimError"] "unsat"))
           sample_simplified amd64 (BVS "nfds" 0 64) (BVV 0x7ffe0000 64)
           (BVV 0 64) (BVV 0 64) (BVV 0 64));
    reflexivity.
Defined.

(** *** One round of the second loop *)

Section MarkBit.

Context (Memory : Type).
Context (solver_solution : BV → outcome Z).
Context (simplified : BV → BV).

Local Abbreviation mark_bit := (mark_bit Memory solver_solution simplified).

Ltac unfold_monad :=
  unfold mbind, M_bind, mret, M_ret, raise, get_world, lift_outcome in *.

(** The round up to its test: the word it looks at and the bit that the
    library keeps for [long[bit_offset]]. *)
Lemma mark_bit_test arch_bits i long_array (st : SimState Memory) long :
  0 < arch_bits → 0 ≤ i →
  long_array !! Z.to_nat (i / arch_bits) = Some long →
  length long = arch_bits →
  mark_bit arch_bits i long_array st
  = if bit_marked
         (simplified (Extract (i mod arch_bits) (i mod arch_bits) long))
    then
      match getitem_slice long (Some (arch_bits - 1))
              (Some (i mod arch_bits + 1)) with
      | Raise e => (Raise e, st)
      | Ret high =>
          match getitem_slice long (Some (i mod arch_bits - 1)) None with
          | Raise e =>
              (Raise e, {| memory := memory st;
                           bvs_counter := N.succ (bvs_counter st) |})
          | Ret low =>
              (Ret (<[Z.to_nat (i / arch_bits) :=
                        Concat (Concat high (BVS "fd_state" (bvs_counter st) 1)) low]>
                      long_array),
               {| memory := memory st; bvs_counter := N.succ (bvs_counter st) |})
          end
      end
    else (Ret long_array, st).
Proof.
  intros Hbits Hi Hlookup Hlength.
  pose proof (Z.mod_pos_bound i arch_bits Hbits) as Hk.
  assert (Hpos : 0 ≤ i / arch_bits) by (apply Z.div_pos; lia).
  unfold select.mark_bit, floordiv, modulo. unfold_monad.
  rewrite (proj2 (Z.eqb_neq arch_bits 0)) by lia.
  rewrite (list_getitem_lookup _ _ long) by assumption.
  unfold getitem_bit. rewrite extract_in_range by lia. cbv zeta.
  set (bit := simplified (Extract (i mod arch_bits) (i mod arch_bits) long)).
  assert (Hmark :
    match getitem_slice long (Some (arch_bits - 1)) (Some (i mod arch_bits + 1)) with
    | Ret a0 =>
        let (o0, w'0) := solver_BVS Memory "fd_state" 1 st in
        match o0 with
        | Ret a1 =>
            match getitem_slice long (Some (i mod arch_bits - 1)) None with
            | Ret a2 =>
                (list_setitem long_array (i / arch_bits) (Concat (Concat a0 a1) a2),
                 w'0)
            | Raise e => (Raise e, w'0)
            end
        | Raise e => (Raise e, w'0)
        end
    | Raise e => (Raise e, st)
    end
    = match getitem_slice long (Some (arch_bits - 1))
              (Some (i mod arch_bits + 1)) with
      | Raise e => (Raise e, st)
      | Ret high =>
          match getitem_slice long (Some (i mod arch_bits - 1)) None with
          | Raise e =>
              (Raise e, {| memory := memory st;
                           bvs_counter := N.succ (bvs_counter st) |})
          | Ret low =>
              (Ret (<[Z.to_nat (i / arch_bits) :=
                        Concat (Concat high (BVS "fd_state" (bvs_counter st) 1)) low]>
                      long_array),
               {| memory := memory st; bvs_counter := N.succ (bvs_counter st) |})
          end
      end).
  { destruct (getitem_slice long (Some (arch_bits - 1)) (Some (i mod arch_bits + 1)));
      [|reflexivity].
    unfold select.solver_BVS.
    destruct (getitem_slice long (Some (i mod arch_bits - 1)) None); [|reflexivity].
    by rewrite (list_setitem_lookup _ _ _ long). }
  unfold bit_marked, select.solver_eval.
  destruct (symbolic bit); cbn [orb]; [exact Hmark|].
  unfold mret, M_ret.
  destruct (concrete_value bit =? 1); [exact Hmark|reflexivity].
Qed.


(** X21: a round for a bit [k] with [1 <= k <= arch_bits - 2], when the bit
    that the library keeps for [long[k]] has a symbol or evaluates to 1,
    replaces the word by one of the same length in which bit [k] is a new
    1-bit symbol and every other bit is the bit of the old word, whatever
    the symbols stand for. *)
Theorem mark_bit_inner_bit arch_bits i long_array (st : SimState Memory) long :
  0 ≤ i →
  long_array !! Z.to_nat (i / arch_bits) = Some long →
  length long = arch_bits →
  1 ≤ i mod arch_bits → i mod arch_bits ≤ arch_bits - 2 →
  bit_marked (simplified (Extract (i mod arch_bits) (i mod arch_bits) long))
  = true →
  ∃ marked,
    mark_bit arch_bits i long_array st
    = (Ret (<[Z.to_nat (i / arch_bits) := marked]> long_array),
       {| memory := memory st; bvs_counter := N.succ (bvs_counter st) |}) ∧
    length marked = arch_bits ∧
    ∀ model j,
      0 ≤ j < arch_bits →
      Z.testbit (value_under model marked) j
      = if j =? i mod arch_bits
        then Z.testbit (model "fd_state"%string (bvs_counter st)) 0
        else Z.testbit (value_under model long) j.
Proof.
  intros Hi Hlookup Hlength Hlow Hhigh Hhit.
  set (k := i mod arch_bits) in *.
  exists (Concat (Concat (Extract (arch_bits - 1) (k + 1) long)
                    (BVS "fd_state" (bvs_counter st) 1))
            (Extract (k - 1) 0 long)).
  split; [|split].
  - rewrite (mark_bit_test _ _ _ _ long) by (assumption || lia).
    fold k. rewrite Hhit.
    rewrite getitem_slice_bounds, getitem_slice_from by lia.
    by rewrite !extract_in_range by lia.
  - cbn [length]. lia.
  - intros model j Hj. cbn [value_under length].
    by apply testbit_splice; lia.
Qed.

(** X22: a round for bit 0 of a word, when the bit that the library keeps
    for [long[0]] has a symbol or evaluates to 1, does not keep the length
    of the word: the slice [[bit_offset - 1:]] is [[-1:]], the whole word,
    and the word that replaces it has [2 * arch_bits] bits, the lower half
    of which are the bits of the old word. *)
Theorem mark_bit_lowest_bit arch_bits i long_array (st : SimState Memory) long :
  2 ≤ arch_bits → 0 ≤ i →
  long_array !! Z.to_nat (i / arch_bits) = Some long →
  length long = arch_bits →
  i mod arch_bits = 0 →
  bit_marked (simplified (Extract 0 0 long)) = true →
  ∃ marked,
    mark_bit arch_bits i long_array st
    = (Ret (<[Z.to_nat (i / arch_bits) := marked]> long_array),
       {| memory := memory st; bvs_counter := N.succ (bvs_counter st) |}) ∧
    length marked = 2 * arch_bits ∧
    ∀ model j,
      0 ≤ j < arch_bits →
      Z.testbit (value_under model marked) j
      = Z.testbit (value_under model long) j.
Proof.
  intros Hbits Hi Hlookup Hlength Hk Hhit.
  exists (Concat (Concat (Extract (arch_bits - 1) 1 long)
                    (BVS "fd_state" (bvs_counter st) 1))
            (Extract (arch_bits - 1) 0 long)).
  split; [|split].
  - rewrite (mark_bit_test _ _ _ _ long) by (assumption || lia).
    rewrite Hk, Hhit.
    rewrite getitem_slice_bounds, getitem_slice_from_end by lia.
    replace (length long + (0 - 1)) with (arch_bits - 1) by lia.
    by rewrite !extract_in_range by lia.
  - cbn [length]. lia.
  - intros model j Hj. cbn [value_under length].
    replace (arch_bits - 1 - 0 + 1) with arch_bits by lia.
    rewrite Z.pow_0_r, Z.div_1_r.
    rewrite <- (Z.mod_pow2_bits_low _ arch_bits j) by lia.
    rewrite Z.add_comm, Z.mod_add by lia.
    rewrite Z.mod_mod by lia.
    apply Z.mod_pow2_bits_low. lia.
Qed.

(** X23: a round for the top bit of a word, when the bit that the library
    keeps for [long[arch_bits - 1]] has a symbol or evaluates to 1, raises:
    the slice [[arch_bits - 1 : bit_offset + 1]] has its low bound above its
    high bound.  No symbol has been made and the words are not changed. *)
Theorem mark_bit_top_bit arch_bits i long_array (st : SimState Memory) long :
  0 < arch_bits → 0 ≤ i →
  long_array !! Z.to_nat (i / arch_bits) = Some long →
  length long = arch_bits →
  i mod arch_bits = arch_bits - 1 →
  bit_marked (simplified (Extract (arch_bits - 1) (arch_bits - 1) long)) = true →
  mark_bit arch_bits i long_array st
  = (Raise (ClaripyOperationError "Extract low must be <= high"), st).
Proof.
  intros Hbits Hi Hlookup Hlength Hk Hhit.
  rewrite (mark_bit_test _ _ _ _ long) by assumption.
  rewrite Hk, Hhit. rewrite getitem_slice_bounds by lia. unfold extract.
  rewrite (proj2 (Z.ltb_ge (arch_bits - 1) 0)) by lia.
  rewrite (proj2 (Z.ltb_ge (arch_bits - 1 + 1) 0)) by lia. cbn [orb].
  by rewrite (proj2 (Z.ltb_lt (arch_bits - 1) (arch_bits - 1 + 1))) by lia.
Qed.

End MarkBit.


Lemma mark_bit_inner_bit_witness :
  ∃ marked,
    mark_bit (list access) zero_solution sample_simplified 64 2
      [partly_symbolic_word] fresh_state
    = (Ret (<[Z.to_nat (2 / 64) := marked]> [partly_symbolic_word]),
       {| memory := []; bvs_counter := 1 |}) ∧
    length marked = 64 ∧
    ∀ model j,
      0 ≤ j < 64 →
      Z.testbit (value_under model marked) j
      = if j =? 2 mod 64
        then Z.testbit (model "fd_state"%string 0%N) 0
        else Z.testbit (value_under model partly_symbolic_word) j.
Proof.
  apply (mark_bit_inner_bit (list access) zero_solution sample_simplified 64 2
           [partly_symbolic_word] fresh_state partly_symbolic_word);
    [discriminate | reflexivity | reflexivity | discriminate | discriminate
    | reflexivity].
Defined.

Lemma mark_bit_lowest_bit_witness :
  ∃ marked,
    mark_bit (list access) zero_solution sample_simplified 64 0
      [partly_symbolic_word] fresh_state
    = (Ret (<[Z.to_nat (0 / 64) := marked]> [partly_symbolic_word]),
       {| memory := []; bvs_counter := 1 |}) ∧
    length marked = 2 * 64 ∧
    ∀ model j,
      0 ≤ j < 64 →
      Z.testbit (value_under model marked) j
      = Z.testbit (value_under model partly_symbolic_word) j.
Proof.
  apply (mark_bit_lowest_bit (list access) zero_solution sample_simplified 64 0
           [partly_symbolic_word] fresh_state partly_symbolic_word);
    [discriminate | discriminate | reflexivity | reflexivity | reflexivity
    | reflexivity].
Defined.

Lemma mark_bit_top_bit_witness :
  mark_bit (list access) zero_solution sample_simplified 64 63
    [partly_symbolic_word] fresh_state
  = (Raise (ClaripyOperationError "Extract low must be <= high"), fresh_state).
Proof.
  apply (mark_bit_top_bit (list access) zero_solution sample_simplified 64 63
           [partly_symbolic_word] fresh_state partly_symbolic_word);
    [reflexivity | discriminate | reflexivity | reflexivity | reflexivity
    | reflexivity].
Defined.

(** A bit that is 0 under a symbol is left alone, and so is a concrete 0 in
    the top bit above symbols. *)
Example concrete_zero_below_symbol :
  mark_bit (list access) zero_solution sample_simplified 16 3
    [Concat (BVS "readfds" 0 1) (BVV 0 15)] fresh_state
  = (Ret [Concat (BVS "readfds" 0 1) (BVV 0 15)], fresh_state).
Proof. reflexivity. Qed.

Example concrete_zero_above_symbol :
  mark_bit (list access) zero_solution sample_simplified 64 63
    [Concat (BVV 0 1) (BVS "readfds" 0 63)] fresh_state
  = (Ret [Concat (BVV 0 1) (BVS "readfds" 0 63)], fresh_state).
Proof. reflexivity. Qed.

(** [select(58, ...)] on 64 bits returns. *)
Lemma select_return_value_witness :
  ∃ uid,
    Concat (BVV 0 1) (BVS "select_ret" 0 31)
    = Concat (BVV 0 1) (BVS "select_ret" uid 31) ∧
    1%N = N.succ uid ∧
    length (Concat (BVV 0 1) (BVS "select_ret" 0 31)) = 32 ∧
    ∀ model,
      Z.testbit (value_under model (Concat (BVV 0 1) (BVS "select_ret" 0 31))) 31
      = false.
Proof.
  apply (select_proofs.select_return_value (list access) logged_load logged_store
           zero_solution sample_simplified amd64 (BVV 58 64) (BVV 0x7ffe0000 64)
           (BVV 0 64) (BVV 0 64) (BVV 0 64) fresh_state
           {| memory := [Load (Add (BVV 0x7ffe0000 64) (BVV 0 64)) 8;
                         Store (Add (BVV 0x7ffe0000 64) (BVV 0 64)) (BVV 0 64)];
              bvs_counter := 1 |}).
  vm_compute. reflexivity.
Defined.

End select_properties.
